(** * 100prisoners.c: Monte Carlo simulation of the 100 prisoners problem

    A shallow embedding of [100prisoners.c] and proofs of the properties its
    specification states.

    - C [int]s are [Z]; every value the program computes from inputs in the
      range of [int] stays in that range, except where noted.
    - The macros [DEFAULT_NUM_PRISONERS] and [MAX_TRIALS] are parameters of
      the trial; the program is the instance at 100 and 50.
    - The disjoint-set structure of [union-find/union-find.h] is a record of
      two lists indexed from 0; an access outside a list, which is undefined
      in C, is [None].
    - [random()] is an oracle: the sequence of values it returns.
    - The process (files, exit status, output) is a state and error monad
      over a log of events.
    - [double] is read twice: as the real numbers, and as IEEE 754
      binary64. *)

From Stdlib Require Import ZArith Lia Ascii String QArith Qabs Reals Lra Floats.
From stdpp Require Import base option list numbers strings pretty.

Local Open Scope Z_scope.

(** ** The disjoint-set structure ([union-find/union-find.h]) *)

Module UnionFind.

(** Modelled from the spec: the type [set_union] of
    [union-find/union-find.h]. Spec, section 3: "parent: sequence of Index
    (one entry per element, self-parent = root), size: sequence of Count
    (valid only at roots, counts elements in that partition)". *)
Record set_union := SetUnion { p : list Z; size : list Z }.

(** [a[i]] for a C [int] index; [None] outside the array. *)
Definition get (a : list Z) (i : Z) : option Z :=
  if bool_decide (0 <= i) then a !! Z.to_nat i else None.

(** [a[i] = v], inside the array. *)
Definition set (a : list Z) (i : Z) (v : Z) : list Z := <[Z.to_nat i := v]> a.

(** Modelled from the spec: [set_union_init] of [union-find/union-find.h].
    Spec, section 4.1: "init(n): allocates n singleton partitions,
    parent[i] = i, size[i] = 1 for all i". Whatever the structure held
    before is overwritten, so the old value is not read. *)
Definition set_union_init (s : set_union) (n : Z) : set_union :=
  {| p := seqZ 0 n; size := replicate (Z.to_nat n) 1 |}.

(** Modelled from the spec: [find] of [union-find/union-find.h]. Spec,
    section 4.1: "returns the root of the partition containing i by
    following parent links until a self-parent is reached", without path
    compression. The walk is cut after [fuel] links; [None] is an access
    outside the array or a walk longer than [fuel]. *)
Fixpoint find_walk (fuel : nat) (s : set_union) (x : Z) : option Z :=
  px ← get (p s) x;
  if px =? x then Some x
  else match fuel with
       | O => None
       | S fuel' => find_walk fuel' s px
       end.

(** A walk through distinct elements has fewer links than there are
    elements. *)
Definition find (s : set_union) (x : Z) : option Z :=
  find_walk (length (p s)) s x.

(** Modelled from the spec: [union_set] of [union-find/union-find.h]. Spec,
    section 4.1: "sets parent[find(a)] = find(b) (directional: a's root is
    attached under b's root) and accumulates size[find(b)] += size[find(a)]".
    When [a] and [b] already share a root there is nothing to link, and
    the structure is left as it is: the invariant of section 3,
    "size[root] equals the number of elements whose root is that root",
    allows nothing else. *)
Definition union_set (s : set_union) (a b : Z) : option set_union :=
  ra ← find s a;
  rb ← find s b;
  if ra =? rb then Some s
  else
    sa ← get (size s) ra;
    sb ← get (size s) rb;
    Some {| p := set (p s) ra rb; size := set (size s) rb (sb + sa) |}.

End UnionFind.
Import UnionFind.

(** ** The single trial ([randomizeArray], [runSimulation]) *)

(** [enum found_t] of [100prisoners.h]. *)
Inductive found_t := FOUND | NOT_FOUND.

Global Instance found_t_eq_dec : EqDecision found_t.
Proof. solve_decision. Defined.

(** The values of [random()], in the order of the calls. [random()] returns
    a [long] between 0 and 2^31 - 1. *)
Definition rng := nat -> N.

(** What one trial leaves behind: its result, the structure behind the
    pointer [s] and the number of [random()] calls made so far. *)
Definition trial := (found_t * set_union * nat)%type.

Definition result (t : trial) : found_t := t.1.1.
Definition final_set (t : trial) : set_union := t.1.2.
Definition calls_made (t : trial) : nat := t.2.

(** [random() % (currentIndex+1)] *)
Definition randomIndex_of (rnd : rng) (k : nat) (currentIndex : Z) : Z :=
  Z.rem (Z.of_N (rnd k)) (currentIndex + 1).

(** [s->size[find(s, currentIndex)]] *)
Definition partition_size (s : set_union) (currentIndex : Z) : option Z :=
  r ← find s currentIndex; get (size s) r.

Section Macros.

(** The two macros the trial reads, [DEFAULT_NUM_PRISONERS] and
    [MAX_TRIALS]. The functions are defined for every value of the two; the
    functions of the program are their instances at the values that
    [100prisoners.c] [#define]s, below. *)
Variable NUM_PRISONERS : Z.
Variable BOUND : Z.

(** The [while (currentIndex > 0)] loop of [randomizeArray]. The recursion
    is on the value of [currentIndex], which the loop decrements down to
    0; [k] counts the calls of [random()]. *)
Fixpoint randomizeArray_loop (rnd : rng) (c : nat) (s : set_union) (k : nat)
  : option trial :=
  match c with
  | O => Some (FOUND, s, k)
  | S c' =>
      let currentIndex := Z.of_nat c in
      let randomIndex := randomIndex_of rnd k currentIndex in
      s1 ← union_set s currentIndex randomIndex;
      sz ← partition_size s1 currentIndex;
      if sz >? BOUND then Some (NOT_FOUND, s1, S k)
      else randomizeArray_loop rnd c' s1 (S k)
  end.

Definition randomizeArray_with (s : set_union) (size : Z) (rnd : rng) (k : nat)
  : option trial :=
  let currentIndex := size - 1 in
  let s := set_union_init s NUM_PRISONERS in
  randomizeArray_loop rnd (Z.to_nat currentIndex) s k.

Definition runSimulation_with (s : set_union) (rnd : rng) (k : nat) : option trial :=
  randomizeArray_with s NUM_PRISONERS rnd k.

End Macros.

Definition DEFAULT_NUM_PRISONERS : Z := 100.
Definition MAX_TRIALS : Z := 50.

Definition randomizeArray : set_union -> Z -> rng -> nat -> option trial :=
  randomizeArray_with DEFAULT_NUM_PRISONERS MAX_TRIALS.

Definition runSimulation : set_union -> rng -> nat -> option trial :=
  runSimulation_with DEFAULT_NUM_PRISONERS MAX_TRIALS.

(** *** The trial without its bound check *)

(** The structure after the first [j] unions of the loop started at
    [currentIndex = c] on [s], whatever sizes they produce: what the loop of
    [randomizeArray] computes when the test against the bound is left out. *)
Fixpoint unions (rnd : rng) (j c : nat) (s : set_union) (k : nat) : option set_union :=
  match j, c with
  | O, _ => Some s
  | S j', S c' =>
      s1 ← union_set s (Z.of_nat c) (randomIndex_of rnd k (Z.of_nat c));
      unions rnd j' c' s1 (S k)
  | S _, O => None
  end.

(** The size of [currentIndex]'s partition immediately after the union of
    step [j] (steps count from 0, and step [j] has [currentIndex = c - j]). *)
Definition size_seen (rnd : rng) (c : nat) (s : set_union) (k : nat) (j : nat) : option Z :=
  s' ← unions rnd (S j) c s k; partition_size s' (Z.of_nat (c - j)).

(** Step [j] is a step of the loop and the size seen there exceeds [b]. *)
Definition exceeds (b : Z) (rnd : rng) (c : nat) (s : set_union) (k : nat) (j : nat) : Prop :=
  (j < c)%nat ∧ ∃ sz, size_seen rnd c s k j = Some sz ∧ b < sz.

(** *** Invariants of the loop *)

(** The sum of a list of sizes. *)
Definition Zsum (l : list Z) : Z := foldr Z.add 0 l.

(** The structure as the loop finds it at [currentIndex = c]: both arrays
    have [N] entries, the elements up to [c] are still roots, and no size
    is below 1. *)
Record loop_inv (N c : nat) (s : set_union) : Prop := LoopInv {
  inv_len_p : length (p s) = N;
  inv_len_size : length (size s) = N;
  inv_root : ∀ i, (i ≤ c)%nat → (i < N)%nat → p s !! i = Some (Z.of_nat i);
  inv_pos : ∀ i x, size s !! i = Some x → 1 ≤ x
}.

(** Two runs that made the same decisions: the same result, the same final
    structure and the same number of draws, counted from [k] and [k']. *)
Definition same_run (k k' : nat) (o o' : option trial) : Prop :=
  match o, o' with
  | Some t, Some t' =>
      result t = result t' ∧ final_set t = final_set t' ∧
      (calls_made t + k' = calls_made t' + k)%nat
  | None, None => True
  | _, _ => False
  end.

(** The local [set_union s] of [simulateAndStats], before
    [set_union_init] writes to it. *)
Definition blank : set_union := SetUnion [] [].

(** The size of [currentIndex]'s partition immediately after the union of
    [currentIndex] with its draw, in a trial of [n] prisoners that starts at
    draw [k], the test against the bound left out. *)
Definition size_after_union (n : Z) (rnd : rng) (k : nat) (currentIndex : Z) : option Z :=
  size_seen rnd (Z.to_nat (n - 1)) (set_union_init blank n) k
    (Z.to_nat (n - 1 - currentIndex)).

(** The size the trial sees at [currentIndex] exceeds the bound [b]. *)
Definition exceeds_at (n b : Z) (rnd : rng) (k : nat) (currentIndex : Z) : Prop :=
  ∃ sz, size_after_union n rnd k currentIndex = Some sz ∧ b < sz.

(** An oracle to run the definitions on. *)
Definition demo_rng : rng := λ k, (N.of_nat k * 7919 + 13)%N.

(** ** The process: entropy source, output, exit *)

Definition EXIT_SUCCESS : Z := 0.
Definition EXIT_FAILURE : Z := 1.

(** The threads of control of a run: the program started from the command
    line, and the threads or child processes it creates, by their
    [taskNum]. *)
Inductive task := Main | Worker (taskNum : nat).

Global Instance task_eq_dec : EqDecision task.
Proof. solve_decision. Defined.

(** What a call of [seed] finds behind [/dev/urandom]: [fopen] returns
    [NULL], or [fread] returns 0, or [fread] stores an [unsigned int]. *)
Inductive urandom_t := NoOpen | NoRead | Read (seedVal : N).

(** What a task cannot decide itself: the entropy source, and the values of
    [random()] as a function of the seed given to [srandom] and of the
    number of calls since. For a thread, which shares the generator with the
    other threads, these are the values its own calls receive. *)
Record task_env := TaskEnv { urandom : urandom_t; generator : N → rng }.

Record world := World {
  env_of : task → task_env;
  fork_ok : nat → bool          (* does the [fork()] of child [i] succeed *)
}.

(** The calls that leave the program, and the trials it runs. *)
Inductive event :=
| Fopen (ok : bool)                       (* fopen("/dev/urandom", "r") *)
| Fread (ok : bool)                       (* fread(&seedVal, ..., urandom) *)
| Perror (msg : string)
| Srandom (seedVal : N)
| Trial (r : found_t)                     (* a call of runSimulation returned r *)
| Puts (text : string)
| Banner (taskName : string) (taskNum numSimulations : Z)
                                          (* the printf of splitSimulation *)
| PrintStats (sum n : Z) (caller : string).    (* a call printStats(sum, n, caller) *)

Record state := State {
  rand_seed : N;                 (* the seed last given to srandom *)
  rand_calls : nat;              (* calls of random() since *)
  successes : list Z;            (* the array the workers report in *)
  log : list (task * event)
}.

(** A process before its first statement. Without [srandom], [random()]
    behaves as if seeded with 1. *)
Definition start : state := State 1 0 [] [].

(** How a computation ends: it returns, the process exits, or the C
    standard leaves the behaviour undefined. *)
Inductive outcome (A : Type) := Ret (a : A) | Exit (status : Z) | Undefined.
Global Arguments Ret {A} a.
Global Arguments Exit {A} status.
Global Arguments Undefined {A}.

Definition M (A : Type) : Type := state → outcome A * state.

Global Instance M_ret : MRet M := λ A a st, (Ret a, st).

Global Instance M_bind : MBind M := λ A B f m st,
  match m st with
  | (Ret a, st') => f a st'
  | (Exit status, st') => (Exit status, st')
  | (Undefined, st') => (Undefined, st')
  end.

Definition emit (t : task) (ev : event) : M unit := λ st,
  (Ret tt, State (rand_seed st) (rand_calls st) (successes st) (log st ++ [(t, ev)])).

Definition exit {A} (status : Z) : M A := λ st, (Exit status, st).

Definition undefined {A} : M A := λ st, (Undefined, st).

Definition srandom (seedVal : N) : M unit := λ st,
  (Ret tt, State seedVal 0 (successes st) (log st)).

Definition set_successes (a : list Z) : M unit := λ st,
  (Ret tt, State (rand_seed st) (rand_calls st) a (log st)).

Definition get_successes : M (list Z) := λ st, (Ret (successes st), st).

(** [for (int i = 0; i < count; i++) body(i)], from [i] on. *)
Fixpoint for_loop (count : nat) (i : Z) (body : Z → M unit) : M unit :=
  match count with
  | O => mret tt
  | S count' => body i;; for_loop count' (i + 1) body
  end.

(** *** [seed] *)

Definition seed (w : world) (t : task) : M unit :=
  match urandom (env_of w t) with
  | NoOpen =>
      emit t (Fopen false);;
      emit t (Perror "Couldn't open urandom file");;
      exit EXIT_FAILURE
  | NoRead =>
      emit t (Fopen true);;
      emit t (Fread false);;
      emit t (Perror "Couldn't read urandom file");;
      exit EXIT_FAILURE
  | Read seedVal =>
      emit t (Fopen true);;
      emit t (Fread true);;
      emit t (Srandom seedVal);;
      srandom seedVal
  end.

(** *** [simulateAndStats] *)

(** Modelled from the spec: the values of the enumerators of [enum found_t]
    in [100prisoners.h], which [sum += runSimulation(&s)] adds up. Spec,
    section 4.3: "summing 1 for each Found outcome". *)
Definition found_value (r : found_t) : Z :=
  match r with FOUND => 1 | NOT_FOUND => 0 end.

(** A call [runSimulation(&s)]: it draws from the generator of the task,
    and leaves its structure behind the pointer. *)
Definition call_runSimulation (w : world) (t : task) (s : set_union)
  : M (found_t * set_union) := λ st,
  match runSimulation s (generator (env_of w t) (rand_seed st)) (rand_calls st) with
  | Some (r, s', k') =>
      (Ret (r, s'),
       State (rand_seed st) k' (successes st) (log st ++ [(t, Trial r)]))
  | None => (Undefined, st)
  end.

(** The loop [for (int i=0; i<n; i++) sum += runSimulation(&s)], with
    [count] iterations to go. *)
Fixpoint trials_loop (w : world) (t : task) (count : nat) (s : set_union) (sum : Z)
  : M Z :=
  match count with
  | O => mret sum
  | S count' =>
      rs ← call_runSimulation w t s;
      trials_loop w t count' rs.2 (sum + found_value rs.1)
  end.

(** [DEBUG] is 0, so [caller] is not used. *)
Definition simulateAndStats (w : world) (t : task) (n : Z) (caller : string) : M Z :=
  seed w t;;
  trials_loop w t (Z.to_nat n) blank 0.

(** *** [printUsage], [printStats] *)

Definition nl : string := String (ascii_of_nat 10) EmptyString.
Definition tab : string := String (ascii_of_nat 9) EmptyString.

Definition usage_text : string :=
  "Usage:" +:+ nl +:+
  tab +:+ "simuBestop numSimulations threadOrProcess numThreadOrProcess" +:+ nl +:+
  tab +:+ "eg. Simulate 1000 with 2 threads" +:+ nl +:+
  tab +:+ "simuBestop 1000 t 2" +:+ nl +:+
  tab +:+ "eg. Simulate 1234 with 4 processes" +:+ nl +:+
  tab +:+ "simuBestop 1234 p 3" +:+ nl +:+
  tab +:+ "eg. Simulate 1234 sequentially" +:+ nl +:+
  tab +:+ "simuBestop 1234 s".

Definition printUsage (t : task) : M unit := emit t (Puts usage_text).

(** The report itself is text made of [double]s; the log keeps the
    arguments of the call, and [Stats.printStats_values] below computes the
    numbers. *)
Definition printStats (t : task) (sum n : Z) (caller : string) : M unit :=
  emit t (PrintStats sum n caller).

(** *** [splitSimulation] *)

(** [struct simParam] of [100prisoners.h], by the fields the program uses.
    The pointer [successes] is the array of the state. *)
Record simParam := SimParam {
  taskName : string;
  taskNum : Z;
  numSimulations : Z
}.

Definition splitSimulation (w : world) (t : task) (p : simParam) : M unit :=
  emit t (Banner (taskName p) (taskNum p + 1) (numSimulations p));;
  let formatted := taskName p +:+ " " +:+ pretty (taskNum p + 1) in
  let idealBufSize := Z.of_nat (String.length formatted) in
  sum ← (if idealBufSize >? 20
         then simulateAndStats w t (numSimulations p) formatted
         else simulateAndStats w t (numSimulations p) (substring 0 19 formatted));
  a ← get_successes;
  set_successes (<[Z.to_nat (taskNum p) := sum]> a).

(** *** [simulateAndStatsWithThreads] *)

(** The workers are run one after the other, each to its end, in the order
    of their creation: one of the schedules of the program. What a worker
    does alone (its trials, its slot of [successes]) is the same in every
    schedule; the order of the events of different workers in the log is
    that of this schedule only. [exit] in a thread ends the process. *)
Definition simulateAndStatsWithThreads (w : world) (n numThreads : Z) : M unit :=
  if numThreads <=? 0 then undefined   (* arrays of no or negative length, n / 0 *)
  else
    set_successes (replicate (Z.to_nat numThreads) 0);;
    for_loop (Z.to_nat numThreads) 0 (λ i,
      splitSimulation w (Worker (Z.to_nat i))
        (SimParam "Thread" i (n ÷ numThreads)));;
    a ← get_successes;
    let sum := Zsum a in
    let numSimulation := (n ÷ numThreads) * numThreads in
    printStats Main sum numSimulation "All threads".

(** *** [simulateAndStatsWithProcesses] *)

(** The child [i] runs on a copy of the state of its parent. The parent
    sees of it what it wrote to the shared array (and, here, its events);
    its exit status is dropped by [wait(NULL)]. As for the threads, each
    child is run to its end where it is created. *)
Definition in_child (child : M unit) : M unit := λ st,
  let st' := (child st).2 in
  (Ret tt, State (rand_seed st) (rand_calls st) (successes st') (log st')).

Definition simulateAndStatsWithProcesses (w : world) (n numProcesses : Z) : M unit :=
  if numProcesses <=? 0 then undefined  (* arrays of no or negative length, n / 0 *)
  else
    set_successes (replicate (Z.to_nat numProcesses) 0);;   (* mmap: zero-filled *)
    for_loop (Z.to_nat numProcesses) 0 (λ i,
      if fork_ok w (Z.to_nat i)
      then in_child (splitSimulation w (Worker (Z.to_nat i))
                       (SimParam "Process" i (n ÷ numProcesses));;
                     exit EXIT_SUCCESS)
      else emit Main (Perror "fork failed");; exit EXIT_FAILURE);;
    a ← get_successes;
    let sum := Zsum a in
    let numSimulation := (n ÷ numProcesses) * numProcesses in
    printStats Main sum numSimulation "All processes".

(** *** [main] *)

(** [atoi] of the C library, for decimal numerals with optional white space
    and sign in front. A value outside [long] is clamped by [strtol], and
    the conversion to [int] keeps the low 32 bits. *)
Definition is_space (c : ascii) : bool :=
  let n := nat_of_ascii c in ((9 <=? n) && (n <=? 13) || (n =? 32))%nat.

Definition digit_of (c : ascii) : option Z :=
  let n := Z.of_nat (nat_of_ascii c) in
  if (48 <=? n) && (n <=? 57) then Some (n - 48) else None.

Fixpoint skip_spaces (s : string) : string :=
  match s with
  | String c s' => if is_space c then skip_spaces s' else s
  | EmptyString => s
  end.

Fixpoint digits (s : string) (acc : Z) : Z :=
  match s with
  | String c s' =>
      match digit_of c with
      | Some d => digits s' (10 * acc + d)
      | None => acc
      end
  | EmptyString => acc
  end.

Definition to_int (x : Z) : Z :=
  let long := Z.max (- 2 ^ 63) (Z.min (2 ^ 63 - 1) x) in
  (long + 2 ^ 31) `mod` 2 ^ 32 - 2 ^ 31.

Definition atoi (s : string) : Z :=
  match skip_spaces s with
  | String "-" s' => to_int (- digits s' 0)
  | String "+" s' => to_int (digits s' 0)
  | s' => to_int (digits s' 0)
  end.

(** [argv[i]]; [main] reads [argv[1]] to [argv[3]] only where [argc] says
    they exist. *)
Definition arg (argv : list string) (i : nat) : string :=
  default EmptyString (argv !! i).

(** [*str == c] *)
Definition starts_with (str : string) (c : ascii) : bool :=
  match str with
  | String c' _ => bool_decide (c' = c)
  | EmptyString => false
  end.

Definition main (w : world) (argv : list string) : M Z :=
  let argc := Z.of_nat (length argv) in
  (if argc =? 3 then
     let inputNumSimulations := atoi (arg argv 1) in
     if starts_with (arg argv 2) "s" then
       sum ← simulateAndStats w Main inputNumSimulations
               "Sequence (Single Thread / Process)";
       printStats Main sum inputNumSimulations "Sequence (Single Thread / Process)"
     else printUsage Main
   else if argc =? 4 then
     let inputNumSimulations := atoi (arg argv 1) in
     if starts_with (arg argv 2) "p" then
       let numProcesses := atoi (arg argv 3) in
       simulateAndStatsWithProcesses w inputNumSimulations numProcesses
     else if starts_with (arg argv 2) "t" then
       let numThreads := atoi (arg argv 3) in
       simulateAndStatsWithThreads w inputNumSimulations numThreads
     else printUsage Main
   else printUsage Main);;
  mret EXIT_SUCCESS.

(** *** What the log tells *)

Definition trial_of (ev : event) : option found_t :=
  match ev with Trial r => Some r | _ => None end.

(** The results of the trials of one task, in their order. *)
Definition trial_results (t : task) (l : list (task * event)) : list found_t :=
  omap (λ te, if decide (te.1 = t) then trial_of te.2 else None) l.

(** The number of trials a task has run. *)
Definition trials_run (t : task) (l : list (task * event)) : nat :=
  length (trial_results t l).

(** The number of trials run by all tasks together. *)
Definition all_trials (l : list (task * event)) : nat :=
  length (omap (λ te, trial_of te.2) l).

(** The arguments of the calls of [printStats]. *)
Definition reports (l : list (task * event)) : list (Z * Z * string) :=
  omap (λ te, match te.2 with PrintStats sum n caller => Some (sum, n, caller) | _ => None end) l.

(** The texts written with [puts]. *)
Definition usages (l : list (task * event)) : list string :=
  omap (λ te, match te.2 with Puts text => Some text | _ => None end) l.

(** The results of [count] trials in a row of [NP] prisoners with bound
    [B], the first of them starting at draw [k] of [rnd]. *)
Fixpoint trial_outcomes (NP B : Z) (rnd : rng) (count k : nat) : list found_t :=
  match count with
  | O => []
  | S count' =>
      match runSimulation_with NP B blank rnd k with
      | Some t => result t :: trial_outcomes NP B rnd count' (calls_made t)
      | None => []
      end
  end.

(** What [seed] and the [n] trials of [simulateAndStats] add to the log of
    task [t]. *)
Definition simulation_events (w : world) (t : task) (n : Z) : list event :=
  match urandom (env_of w t) with
  | NoOpen => [Fopen false; Perror "Couldn't open urandom file"]
  | NoRead => [Fopen true; Fread false; Perror "Couldn't read urandom file"]
  | Read seedVal =>
      [Fopen true; Fread true; Srandom seedVal] ++
      (Trial <$> trial_outcomes DEFAULT_NUM_PRISONERS MAX_TRIALS
                   (generator (env_of w t) seedVal) (Z.to_nat n) 0)
  end.

(** What the workers [i], ..., [i + m - 1] add to the log, each with
    [q] trials to run. *)
Fixpoint workers_log (w : world) (name : string) (q : Z) (i m : nat)
  : list (task * event) :=
  match m with
  | O => []
  | S m' =>
      (pair (Worker i) <$>
         Banner name (Z.of_nat i + 1) q :: simulation_events w (Worker i) q)
      ++ workers_log w name q (S i) m'
  end.

(** The entropy source answers every worker. *)
Definition entropy_for_workers (w : world) : Prop :=
  ∀ i, ∃ seedVal, urandom (env_of w (Worker i)) = Read seedVal.

(** The three forms of command line the specification accepts:
    [run <numSimulations> s], [run <numSimulations> t <numThreads>] and
    [run <numSimulations> p <numProcesses>]. *)
Definition accepted_form (argv : list string) : bool :=
  match argv with
  | [_; _; mode] => bool_decide (mode = "s")
  | [_; _; mode; _] => bool_decide (mode = "t") || bool_decide (mode = "p")
  | _ => false
  end.

(** The command lines [main] takes for a request to simulate: it looks at
    their number and at the first character of the third only. *)
Definition recognised (argv : list string) : bool :=
  match argv with
  | [_; _; mode] => starts_with mode "s"
  | [_; _; mode; _] => starts_with mode "p" || starts_with mode "t"
  | _ => false
  end.

(** What a run shows when [n] trials were split over [numWorkers] workers:
    it returns; every worker has run [n ÷ numWorkers] trials; the trials of
    the run are [(n ÷ numWorkers) * numWorkers]; and that is the number of
    trials of the one report. *)
Definition split_evenly (n numWorkers : Z) (run : outcome () * state) : Prop :=
  run.1 = Ret tt ∧
  (∀ i, (i < Z.to_nat numWorkers)%nat →
        Z.of_nat (trials_run (Worker i) (log run.2)) = n ÷ numWorkers) ∧
  Z.of_nat (all_trials (log run.2)) = (n ÷ numWorkers) * numWorkers ∧
  ∃ sum caller, reports (log run.2) = [(sum, (n ÷ numWorkers) * numWorkers, caller)].

(** The trials of every task in the log are trials of [NP] prisoners with
    bound [B], run one after the other on the task's generator as seeded
    from its entropy source. *)
Definition trials_are (NP B : Z) (w : world) (l : list (task * event)) : Prop :=
  ∀ t, trial_results t l = [] ∨
       ∃ count seedVal,
         urandom (env_of w t) = Read seedVal ∧
         trial_results t l
         = trial_outcomes NP B (generator (env_of w t) seedVal) count 0.

(** A world to run the definitions in. *)
Definition demo_world : world :=
  World (λ _, TaskEnv (Read 42) (λ sd k, (sd + N.of_nat k * 7919)%N)) (λ _, true).
(** ** The numbers of [printStats] *)

Module Stats.

(** The arithmetic of [double] that [printStats] uses: the conversion from
    [int], the two literals, the four operations and [sqrt] of [math.h]. *)
Class Arith (D : Type) := {
  of_int : Z → D;
  lit_0_0 : D;
  lit_1_96 : D;
  add : D → D → D;
  sub : D → D → D;
  mul : D → D → D;
  div : D → D → D;
  sqrt : D → D
}.

(** What [printStats] prints with [%f]: the estimate, the variance and the
    two ends of the interval. *)
Record report (D : Type) := Report { mean : D; var : D; ci_low : D; ci_high : D }.
Global Arguments Report {D}.
Global Arguments mean {D}.
Global Arguments var {D}.
Global Arguments ci_low {D}.
Global Arguments ci_high {D}.

Definition printStats_values {D} `{Arith D} (sum n : Z) : report D :=
  let mean := div (of_int sum) (add (of_int n) lit_0_0) in
  let var := div (mul (of_int sum) (sub (of_int 1) mean)) (of_int (n - 1)) in
  Report mean var
    (sub mean (mul lit_1_96 (sqrt (div var (of_int n)))))
    (add mean (mul lit_1_96 (sqrt (div var (of_int n))))).

(** [double] read as the real numbers: no rounding. *)
Definition exact : Arith R := {|
  of_int := IZR;
  lit_0_0 := 0%R;
  lit_1_96 := 1.96%R;
  add := Rplus; sub := Rminus; mul := Rmult; div := Rdiv;
  sqrt := R_sqrt.sqrt
|}.

(** An [int] as a [double]: exact, an [int] has 32 bits. *)
Definition double_of_int (z : Z) : float :=
  if z <? 0 then PrimFloat.opp (PrimFloat.of_uint63 (Uint63.of_Z (- z)))
  else PrimFloat.of_uint63 (Uint63.of_Z z).

#[local] Set Warnings "-inexact-float".

(** [double] as IEEE 754 binary64 with rounding to nearest, ties to even:
    the arithmetic of the program where [double] operations are not
    contracted or carried out in a wider format (x86-64 with SSE2). *)
Definition binary64 : Arith float := {|
  of_int := double_of_int;
  lit_0_0 := 0%float;
  lit_1_96 := 1.96%float;
  add := PrimFloat.add; sub := PrimFloat.sub;
  mul := PrimFloat.mul; div := PrimFloat.div;
  sqrt := PrimFloat.sqrt
|}.

#[local] Set Warnings "inexact-float".

(** The rational number a finite [double] stands for; [None] for an
    infinity or a NaN. *)
Definition value_of (f : float) : option Q :=
  match Prim2SF f with
  | S754_zero _ => Some 0%Q
  | S754_finite s m e =>
      let magnitude :=
        if 0 <=? e then Qmake (Z.pos m * 2 ^ e) 1
        else Qmake (Z.pos m) (Pos.pow 2 (Z.to_pos (- e))) in
      Some (if s then Qopp magnitude else magnitude)
  | _ => None
  end.

(** The [double] [f] is finite and within [eps] of [q]. *)
Definition near (eps q : Q) (f : float) : Prop :=
  match value_of f with
  | Some v => (Qabs (v - q) < eps)%Q
  | None => False
  end.

End Stats.

(** ** More to read from the log *)

(** The number of trials in the log that returned [FOUND], counted as
    [simulateAndStats] counts them. *)
Definition found_count (l : list (task * event)) : Z :=
  Zsum (omap (λ te, found_value <$> trial_of te.2) l).

(** The entropy source answers the task. *)
Definition seeded (w : world) (t : task) : bool :=
  match urandom (env_of w t) with Read _ => true | _ => false end.

(** The messages written with [perror], with their tasks. *)
Definition perrors (l : list (task * event)) : list (task * string) :=
  omap (λ te, match te.2 with Perror msg => Some (te.1, msg) | _ => None end) l.

(** A world in which no task gets a seed, and one in which the second
    [fork] fails, to run the definitions in. *)
Definition dry_world : world :=
  World (λ _, TaskEnv NoOpen (λ sd k, (sd + N.of_nat k * 7919)%N)) (λ _, true).

Definition crowded_world : world :=
  World (λ _, TaskEnv (Read 42) (λ sd k, (sd + N.of_nat k * 7919)%N))
        (λ i, bool_decide (i ≠ 1%nat)).


(** ** The partitions of the structure *)




(** ** Facts about the disjoint-set structure *)

Local Arguments Z.of_nat : simpl never.
Local Arguments Z.eqb : simpl never.
Local Arguments Z.gtb : simpl never.

Lemma get_of_nat (a : list Z) (i : nat) : get a (Z.of_nat i) = a !! i.
Proof.
  unfold get. rewrite bool_decide_eq_true_2 by lia. by rewrite Nat2Z.id.
Qed.

Lemma Zsum_app (l1 l2 : list Z) : Zsum (l1 ++ l2) = Zsum l1 + Zsum l2.
Proof. induction l1 as [|x l1 IH]; simpl; [done | rewrite IH; lia]. Qed.

Lemma Zsum_insert (l : list Z) (i : nat) (x y : Z) :
  l !! i = Some x → Zsum (<[i:=y]> l) = Zsum l - x + y.
Proof.
  revert i. induction l as [|a l IH]; intros [|i] H; simplify_eq/=; [lia|].
  rewrite (IH i) by done. lia.
Qed.

Lemma Zsum_nonneg (l : list Z) : (∀ i x, l !! i = Some x → 0 ≤ x) → 0 ≤ Zsum l.
Proof.
  induction l as [|a l IH]; intros H; simpl; [lia|].
  specialize (H 0%nat a eq_refl) as Ha.
  assert (0 ≤ Zsum l) by (apply IH; intros i x Hi; apply (H (S i)); done). lia.
Qed.

Lemma Zsum_lookup_le (l : list Z) (i : nat) (x : Z) :
  (∀ j y, l !! j = Some y → 0 ≤ y) → l !! i = Some x → x ≤ Zsum l.
Proof.
  revert i. induction l as [|a l IH]; intros [|i] Hpos H; simplify_eq/=.
  - assert (0 ≤ Zsum l) by (apply Zsum_nonneg; intros j y Hj; apply (Hpos (S j)); done). lia.
  - assert (x ≤ Zsum l) by (apply (IH i); [intros j y Hj; apply (Hpos (S j)); done | done]).
    specialize (Hpos 0%nat a eq_refl). lia.
Qed.

Lemma Zsum_replicate (n : nat) (x : Z) : Zsum (replicate n x) = Z.of_nat n * x.
Proof. induction n as [|n IH]; simpl; [lia | rewrite IH; lia]. Qed.

Lemma find_root (s : set_union) (i : nat) :
  p s !! i = Some (Z.of_nat i) → find s (Z.of_nat i) = Some (Z.of_nat i).
Proof.
  intros H. unfold find. destruct (length (p s)); simpl;
    rewrite get_of_nat, H; simpl; by rewrite Z.eqb_refl.
Qed.

Lemma find_child (s : set_union) (i r : nat) :
  i ≠ r → p s !! i = Some (Z.of_nat r) → p s !! r = Some (Z.of_nat r) →
  find s (Z.of_nat i) = Some (Z.of_nat r).
Proof.
  intros Hne Hi Hr. unfold find.
  destruct (length (p s)) as [|n] eqn:Hlen.
  { apply lookup_lt_Some in Hi. lia. }
  simpl. rewrite get_of_nat, Hi. simpl.
  destruct (Z.eqb_spec (Z.of_nat r) (Z.of_nat i)); [lia|].
  destruct n; simpl; rewrite get_of_nat, Hr; simpl; by rewrite Z.eqb_refl.
Qed.

Lemma randomIndex_range (rnd : rng) (k c : nat) :
  ∃ r : nat, randomIndex_of rnd k (Z.of_nat c) = Z.of_nat r ∧ (r ≤ c)%nat.
Proof.
  unfold randomIndex_of.
  pose proof (Z.rem_bound_pos (Z.of_N (rnd k)) (Z.of_nat c + 1)) as Hb.
  exists (Z.to_nat (Z.rem (Z.of_N (rnd k)) (Z.of_nat c + 1))). lia.
Qed.

(** One iteration of the loop at [currentIndex = S c]: the union and the
    size query are defined, the invariant holds again one index lower, and
    the sizes of the elements still to come, together, have not grown. *)
Lemma union_step (N c : nat) (s : set_union) (rnd : rng) (k : nat) :
  loop_inv N (S c) s → (S c < N)%nat →
  ∃ s1 sz,
    union_set s (Z.of_nat (S c)) (randomIndex_of rnd k (Z.of_nat (S c))) = Some s1
    ∧ partition_size s1 (Z.of_nat (S c)) = Some sz
    ∧ loop_inv N c s1
    ∧ 1 ≤ sz ≤ Zsum (take (S (S c)) (size s))
    ∧ Zsum (take (S c) (size s1)) ≤ Zsum (take (S (S c)) (size s)).
Proof.
  intros [Hlp Hls Hroot Hpos] Hc.
  destruct (randomIndex_range rnd k (S c)) as (r & -> & Hr).
  assert (Hpc : p s !! S c = Some (Z.of_nat (S c))) by (apply Hroot; lia).
  assert (Hpr : p s !! r = Some (Z.of_nat r)) by (apply Hroot; lia).
  destruct (lookup_lt_is_Some_2 (size s) (S c)) as [sa Hsa]; [lia|].
  destruct (lookup_lt_is_Some_2 (size s) r) as [sb Hsb]; [lia|].
  assert (Hnn : ∀ (l : list Z) (n : nat),
    (∀ i x, l !! i = Some x → 1 ≤ x) → ∀ j y, take n l !! j = Some y → 0 ≤ y).
  { intros l n Hl j y Hj. apply lookup_take_Some in Hj as [Hj _].
    apply Hl in Hj. lia. }
  assert (Htake : Zsum (take (S (S c)) (size s)) = Zsum (take (S c) (size s)) + sa).
  { rewrite (take_S_r _ _ _ Hsa), Zsum_app. simpl. lia. }
  unfold union_set, partition_size.
  rewrite (find_root s (S c) Hpc), (find_root s r Hpr). simpl.
  destruct (Z.eqb_spec (Z.of_nat (S c)) (Z.of_nat r)) as [Heq|Hne].
  - (* the draw is currentIndex itself: nothing is linked *)
    assert (r = S c) as -> by lia.
    exists s, sa. rewrite (find_root s (S c) Hpc). simpl. rewrite get_of_nat.
    split; [done|]. split; [done|]. split.
    { constructor; auto; intros i Hi HN; apply Hroot; lia. }
    pose proof (Hpos _ _ Hsa).
    pose proof (Zsum_nonneg (take (S c) (size s)) (Hnn _ _ Hpos)). lia.
  - (* currentIndex is attached under the draw *)
    assert (Hrc : r ≠ S c) by lia. assert (Hrlt : (r < S c)%nat) by lia.
    rewrite !get_of_nat, Hsa, Hsb. simpl.
    eexists _, (sb + sa). split; [done|].
    assert (Hp1c : set (p s) (Z.of_nat (S c)) (Z.of_nat r) !! S c = Some (Z.of_nat r)).
    { unfold set. rewrite Nat2Z.id. apply list_lookup_insert_eq. lia. }
    assert (Hp1r : set (p s) (Z.of_nat (S c)) (Z.of_nat r) !! r = Some (Z.of_nat r)).
    { unfold set. rewrite Nat2Z.id. by rewrite list_lookup_insert_ne by lia. }
    rewrite (find_child _ (S c) r); simpl; [|lia|done|done].
    rewrite get_of_nat. unfold set at 1. rewrite Nat2Z.id.
    rewrite list_lookup_insert_eq by lia.
    split; [done|]. split.
    { constructor; simpl; unfold set; rewrite ?Nat2Z.id.
      - by rewrite length_insert.
      - by rewrite length_insert.
      - intros i Hi HN. rewrite list_lookup_insert_ne by lia. apply Hroot; lia.
      - intros i x Hi. apply list_lookup_insert_Some in Hi as [(_ & <- & _)|[_ Hi]].
        + pose proof (Hpos _ _ Hsa). pose proof (Hpos _ _ Hsb). lia.
        + by apply (Hpos i). }
    simpl. unfold set. rewrite Nat2Z.id.
    rewrite take_insert_lt by lia.
    assert (Hsbt : take (S c) (size s) !! r = Some sb) by (rewrite lookup_take_lt by lia; done).
    rewrite (Zsum_insert _ _ _ _ Hsbt), Htake.
    pose proof (Hpos _ _ Hsa). pose proof (Hpos _ _ Hsb).
    pose proof (Zsum_lookup_le _ _ _ (Hnn _ _ Hpos) Hsbt). lia.
Qed.

(** [set_union_init] establishes the invariant at every index. *)
Lemma init_inv (s : set_union) (N : Z) (c : nat) :
  loop_inv (Z.to_nat N) c (set_union_init s N).
Proof.
  constructor; simpl.
  - apply length_seqZ.
  - apply length_replicate.
  - intros i _ Hi. by rewrite lookup_seqZ_lt by lia.
  - intros i x Hi. apply lookup_replicate in Hi as [-> _]. lia.
Qed.


(** ** Facts about the loop of [randomizeArray] *)

Section Loop.

Variable b : Z.
Variable N : nat.
Variable rnd : rng.

Lemma size_seen_first (c : nat) (s s1 : set_union) (k : nat) :
  union_set s (Z.of_nat (S c)) (randomIndex_of rnd k (Z.of_nat (S c))) = Some s1 →
  size_seen rnd (S c) s k 0 = partition_size s1 (Z.of_nat (S c)).
Proof.
  intros H. unfold size_seen. cbn [unions]. rewrite H. simpl.
  by rewrite ?Nat.sub_0_r.
Qed.

Lemma size_seen_later (c : nat) (s s1 : set_union) (k j : nat) :
  union_set s (Z.of_nat (S c)) (randomIndex_of rnd k (Z.of_nat (S c))) = Some s1 →
  size_seen rnd (S c) s k (S j) = size_seen rnd c s1 (S k) j.
Proof.
  intros H. unfold size_seen. change (unions rnd (S (S j)) (S c) s k) with
    (union_set s (Z.of_nat (S c)) (randomIndex_of rnd k (Z.of_nat (S c)))
       ≫= λ s1, unions rnd (S j) c s1 (S k)).
  by rewrite H.
Qed.

Lemma exceeds_later (c : nat) (s s1 : set_union) (k j : nat) :
  union_set s (Z.of_nat (S c)) (randomIndex_of rnd k (Z.of_nat (S c))) = Some s1 →
  exceeds b rnd (S c) s k (S j) ↔ exceeds b rnd c s1 (S k) j.
Proof.
  intros H. unfold exceeds. rewrite (size_seen_later _ _ _ _ _ H).
  split; intros [? ?]; (split; [lia | done]).
Qed.

(** The loop returns, and what it returns is decided by the first step
    whose size exceeds the bound. *)
Lemma loop_char (c : nat) : ∀ (s : set_union) (k : nat),
  loop_inv N c s → (c = 0 ∨ c < N)%nat →
  ∃ t, randomizeArray_loop b rnd c s k = Some t ∧
    ((result t = NOT_FOUND ∧
      ∃ j, exceeds b rnd c s k j ∧ (∀ i, (i < j)%nat → ¬ exceeds b rnd c s k i) ∧
           calls_made t = (k + S j)%nat ∧
           unions rnd (S j) c s k = Some (final_set t))
     ∨ (result t = FOUND ∧ (∀ j, ¬ exceeds b rnd c s k j) ∧
        calls_made t = (k + c)%nat ∧
        unions rnd c c s k = Some (final_set t))).
Proof.
  induction c as [|c IH]; intros s k Hinv Hc.
  - exists (FOUND, s, k). split; [done|]. right. split_and!; simpl.
    + done.
    + intros j [Hj _]. lia.
    + unfold calls_made. simpl. lia.
    + done.
  - assert (HcN : (S c < N)%nat) by lia.
    destruct (union_step N c s rnd k Hinv HcN) as (s1 & sz & Hu & Hsz & Hinv1 & _ & _).
    cbn [randomizeArray_loop]. rewrite Hu. simpl. rewrite Hsz. simpl.
    destruct (Z.gtb_spec sz b) as [Hgt|Hle].
    + exists (NOT_FOUND, s1, S k). split; [done|]. left. split; [done|].
      exists 0%nat. split_and!.
      * split; [lia|]. exists sz. by rewrite (size_seen_first _ _ _ _ Hu).
      * intros i Hi. lia.
      * unfold calls_made. simpl. lia.
      * cbn [unions]. by rewrite Hu.
    + destruct (IH s1 (S k) Hinv1 ltac:(lia)) as (t & Ht & Hcase).
      exists t. split; [done|].
      assert (H0 : ¬ exceeds b rnd (S c) s k 0).
      { intros [_ (sz' & Hs & Hb)]. rewrite (size_seen_first _ _ _ _ Hu), Hsz in Hs.
        simplify_eq. lia. }
      destruct Hcase as [(Hr & j & Hj & Hfirst & Hcalls & Hun)|(Hr & Hnone & Hcalls & Hun)].
      * left. split; [done|]. exists (S j). split_and!.
        -- by apply (exceeds_later _ _ _ _ _ Hu).
        -- intros [|i] Hi; [done|]. rewrite (exceeds_later _ _ _ _ _ Hu).
           apply Hfirst. lia.
        -- lia.
        -- change (unions rnd (S (S j)) (S c) s k) with
             (union_set s (Z.of_nat (S c)) (randomIndex_of rnd k (Z.of_nat (S c)))
                ≫= λ s1, unions rnd (S j) c s1 (S k)).
           by rewrite Hu.
      * right. split_and!.
        -- done.
        -- intros [|j]; [done|]. rewrite (exceeds_later _ _ _ _ _ Hu). apply Hnone.
        -- lia.
        -- cbn [unions]. by rewrite Hu.
Qed.


(** The first union already gives a partition of at least one element. *)
Lemma loop_first_union (c : nat) (s : set_union) (k : nat) :
  loop_inv N (S c) s → (S c < N)%nat → b < 1 →
  ∃ s1, union_set s (Z.of_nat (S c)) (randomIndex_of rnd k (Z.of_nat (S c))) = Some s1 ∧
        randomizeArray_loop b rnd (S c) s k = Some (NOT_FOUND, s1, S k).
Proof.
  intros Hinv HcN Hb.
  destruct (union_step N c s rnd k Hinv HcN) as (s1 & sz & Hu & Hsz & _ & Hsz1 & _).
  exists s1. split; [done|].
  cbn [randomizeArray_loop]. rewrite Hu. simpl. rewrite Hsz. simpl.
  destruct (Z.gtb_spec sz b); [done | lia].
Qed.

End Loop.

(** The loop reads the draws [k], ..., [k + c - 1] and nothing else of the
    oracle. *)
Lemma loop_draws (b : Z) (rnd rnd' : rng) (c : nat) : ∀ (s : set_union) (k k' : nat),
  (∀ j, (j < c)%nat → rnd (k + j)%nat = rnd' (k' + j)%nat) →
  same_run k k' (randomizeArray_loop b rnd c s k) (randomizeArray_loop b rnd' c s k').
Proof.
  induction c as [|c IH]; intros s k k' Hd.
  - unfold same_run, result, final_set, calls_made. simpl. split_and!; [done | done | lia].
  - cbn [randomizeArray_loop]. unfold randomIndex_of.
    assert (H0 : rnd k = rnd' k').
    { specialize (Hd 0%nat). rewrite !Nat.add_0_r in Hd. apply Hd. lia. }
    rewrite H0.
    destruct (union_set _ _ _) as [s1|]; [simpl|done].
    destruct (partition_size _ _) as [sz|]; [simpl|done].
    destruct (sz >? b).
    + unfold same_run, result, final_set, calls_made. simpl. split_and!; [done | done | lia].
    + assert (Hd' : ∀ j, (j < c)%nat → rnd (S k + j)%nat = rnd' (S k' + j)%nat).
      { intros j Hj. replace (S k + j)%nat with (k + S j)%nat by lia.
        replace (S k' + j)%nat with (k' + S j)%nat by lia. apply Hd. lia. }
      specialize (IH s1 (S k) (S k') Hd'). unfold same_run in *.
      destruct (randomizeArray_loop b rnd c s1 (S k)) as [t|];
        destruct (randomizeArray_loop b rnd' c s1 (S k')) as [t'|]; try done.
      destruct IH as (? & ? & ?). repeat split; [done | done | lia].
Qed.

(** ** The single trial: what the specification states *)

(** The trial of [n] prisoners runs the loop from [n - 1] on a structure
    that satisfies the invariant. *)
Lemma runSimulation_with_loop (n b : Z) (s : set_union) (rnd : rng) (k : nat) :
  runSimulation_with n b s rnd k
  = randomizeArray_loop b rnd (Z.to_nat (n - 1)) (set_union_init blank n) k.
Proof. reflexivity. Qed.

Lemma exceeds_at_step (n b : Z) (rnd : rng) (k : nat) (j : nat) :
  (j < Z.to_nat (n - 1))%nat →
  exceeds b rnd (Z.to_nat (n - 1)) (set_union_init blank n) k j
  ↔ exceeds_at n b rnd k (n - 1 - Z.of_nat j).
Proof.
  intros Hj. unfold exceeds, exceeds_at, size_after_union.
  replace (Z.to_nat (n - 1 - (n - 1 - Z.of_nat j))) with j by lia.
  split; [by intros [_ H] | by intros H].
Qed.

(** C1. The trial of [n] prisoners with bound [b] returns. It returns
    [NOT_FOUND] exactly when at some step of the loop, [currentIndex]
    descending from [n - 1] to 1, the size of [currentIndex]'s partition
    immediately after the union with the drawn index exceeds [b]; it then
    has stopped at the first such step, having made one draw for each
    [currentIndex] from [n - 1] down to that one. It returns [FOUND]
    exactly when no step exceeds [b], after [n - 1] draws. *)
Theorem runSimulation_first_exceedance (n b : Z) (s : set_union) (rnd : rng) (k : nat) :
  ∃ t, runSimulation_with n b s rnd k = Some t ∧
    (result t = NOT_FOUND ↔ ∃ ci, 1 ≤ ci ≤ n - 1 ∧ exceeds_at n b rnd k ci) ∧
    (result t = FOUND ↔ ∀ ci, 1 ≤ ci ≤ n - 1 → ¬ exceeds_at n b rnd k ci) ∧
    (result t = NOT_FOUND →
       ∃ ci, 1 ≤ ci ≤ n - 1 ∧ exceeds_at n b rnd k ci ∧
             (∀ ci', ci < ci' ≤ n - 1 → ¬ exceeds_at n b rnd k ci') ∧
             Z.of_nat (calls_made t) = Z.of_nat k + (n - ci) ∧
             unions rnd (Z.to_nat (n - ci)) (Z.to_nat (n - 1)) (set_union_init blank n) k
             = Some (final_set t)) ∧
    (result t = FOUND → Z.of_nat (calls_made t) = Z.of_nat k + Z.max 0 (n - 1)).
Proof.
  rewrite runSimulation_with_loop.
  set (c := Z.to_nat (n - 1)). set (s0 := set_union_init blank n).
  destruct (loop_char b (Z.to_nat n) rnd c s0 k) as (t & Ht & Hcase).
  { apply init_inv. }
  { lia. }
  exists t. split; [done|].
  assert (Hidx : ∀ ci, 1 ≤ ci ≤ n - 1 →
    (Z.to_nat (n - 1 - ci) < c)%nat ∧ n - 1 - Z.of_nat (Z.to_nat (n - 1 - ci)) = ci) by lia.
  assert (Hback : ∀ ci, 1 ≤ ci ≤ n - 1 →
    exceeds_at n b rnd k ci → exceeds b rnd c s0 k (Z.to_nat (n - 1 - ci))).
  { intros ci Hci Hex. destruct (Hidx ci Hci) as [Hlt Heq].
    apply (proj2 (exceeds_at_step n b rnd k _ Hlt)). by rewrite Heq. }
  destruct Hcase as [(Hr & j & Hj & Hfirst & Hcalls & Hun)|(Hr & Hnone & Hcalls & Hun)].
  - assert (Hjc : (j < c)%nat) by apply Hj.
    assert (Hex : exceeds_at n b rnd k (n - 1 - Z.of_nat j)).
    { apply (proj1 (exceeds_at_step n b rnd k j Hjc)), Hj. }
    split_and!.
    + split; [|done]. intros _. exists (n - 1 - Z.of_nat j). split; [lia | done].
    + rewrite Hr. split; [done|]. intros Hall. exfalso.
      apply (Hall (n - 1 - Z.of_nat j)); [lia | done].
    + intros _. exists (n - 1 - Z.of_nat j). split_and!; [lia | lia | done | | lia |].
      * intros ci' Hci' Hex'. apply (Hfirst (Z.to_nat (n - 1 - ci'))); [lia|].
        apply Hback; [lia | done].
      * replace (Z.to_nat (n - (n - 1 - Z.of_nat j))) with (S j) by lia. done.
    + rewrite Hr. done.
  - split_and!.
    + rewrite Hr. split; [done|]. intros (ci & Hci & Hex). exfalso.
      apply (Hnone (Z.to_nat (n - 1 - ci))). by apply Hback.
    + split; [|done]. intros _ ci Hci Hex.
      apply (Hnone (Z.to_nat (n - 1 - ci))). by apply Hback.
    + rewrite Hr. done.
    + intros _. lia.
Qed.




(** C3. For every [n ≥ 2] and bound 0, whatever the draws, the trial of [n]
    prisoners returns [NOT_FOUND] at its first union: it has made one draw,
    and the structure is the one that union left. *)
Theorem runSimulation_bound_zero (n : Z) (s : set_union) (rnd : rng) (k : nat) :
  2 ≤ n →
  ∃ s1,
    union_set (set_union_init blank n) (n - 1) (randomIndex_of rnd k (n - 1)) = Some s1 ∧
    runSimulation_with n 0 s rnd k = Some (NOT_FOUND, s1, S k).
Proof.
  intros Hn. rewrite runSimulation_with_loop.
  destruct (Z.to_nat (n - 1)) as [|c] eqn:Hc; [lia|].
  replace (n - 1) with (Z.of_nat (S c)) by lia.
  apply (loop_first_union 0 (Z.to_nat n)); [apply init_inv | lia | lia].
Qed.

Lemma runSimulation_bound_zero_witness :
  2 ≤ 100 ∧
  ∃ s1,
    union_set (set_union_init blank 100) (100 - 1) (randomIndex_of demo_rng 0 (100 - 1))
    = Some s1 ∧
    runSimulation_with 100 0 blank demo_rng 0 = Some (NOT_FOUND, s1, 1%nat).
Proof.
  split; [lia|]. apply (runSimulation_bound_zero 100 blank demo_rng 0); lia.
Defined.

(** C4. For one prisoner and any bound the trial returns [FOUND] without
    entering the loop: the structure is as [set_union_init] left it, and no
    draw is made. So does [randomizeArray] on [N] elements with [size] 1. *)
Theorem runSimulation_one_prisoner (N b : Z) (s : set_union) (rnd : rng) (k : nat) :
  runSimulation_with 1 b s rnd k = Some (FOUND, set_union_init s 1, k) ∧
  randomizeArray_with N b s 1 rnd k = Some (FOUND, set_union_init s N, k).
Proof. split; reflexivity. Qed.

(** C7. Two runs of the trial with the same number of prisoners, the same
    bound and the same draws return the same result, whatever the
    structures held before and wherever in the sequence of [random()] the
    runs start; they also leave the same structure and make the same number
    of draws. *)
Theorem randomizeArray_deterministic
  (N b n : Z) (s s' : set_union) (rnd rnd' : rng) (k k' : nat) :
  (∀ j, (j < Z.to_nat (n - 1))%nat → rnd (k + j)%nat = rnd' (k' + j)%nat) →
  result <$> randomizeArray_with N b s n rnd k
  = result <$> randomizeArray_with N b s' n rnd' k' ∧
  same_run k k' (randomizeArray_with N b s n rnd k) (randomizeArray_with N b s' n rnd' k').
Proof.
  intros Hd. unfold randomizeArray_with.
  pose proof (loop_draws b rnd rnd' (Z.to_nat (n - 1)) (set_union_init blank N) k k' Hd) as H.
  change (set_union_init s N) with (set_union_init blank N).
  change (set_union_init s' N) with (set_union_init blank N).
  split; [|done]. unfold same_run in H.
  destruct (randomizeArray_loop b rnd _ _ k), (randomizeArray_loop b rnd' _ _ k');
    simpl; try done. f_equal. apply H.
Qed.

Lemma randomizeArray_deterministic_witness :
  (∀ j, (j < Z.to_nat (100 - 1))%nat →
     demo_rng (0 + j)%nat = (λ i, demo_rng (i - 5)%nat) (5 + j)%nat) ∧
  result <$> randomizeArray_with 100 50 blank 100 demo_rng 0
  = result <$> randomizeArray_with 100 50 (SetUnion [3] [4]) 100 (λ i, demo_rng (i - 5)%nat) 5.
Proof.
  assert (H : ∀ j, (j < Z.to_nat (100 - 1))%nat →
     demo_rng (0 + j)%nat = (λ i, demo_rng (i - 5)%nat) (5 + j)%nat).
  { intros j _. simpl. f_equal. lia. }
  split; [exact H|].
  exact (proj1 (randomizeArray_deterministic 100 50 100 blank (SetUnion [3] [4])
                  demo_rng (λ i, demo_rng (i - 5)%nat) 0 5 H)).
Defined.

(** ** Facts about the process *)

Lemma bind_run {A B} (m : M A) (f : A → M B) (st : state) :
  (m ≫= f) st
  = match m st with
    | (Ret a, st') => f a st'
    | (Exit status, st') => (Exit status, st')
    | (Undefined, st') => (Undefined, st')
    end.
Proof. reflexivity. Qed.

(** Run the steps of a computation whose effects are at hand. *)
Ltac run_M :=
  repeat (rewrite bind_run;
          cbn [emit exit undefined srandom set_successes get_successes mret M_ret
               rand_seed rand_calls successes log fst snd]).

(** A trial of [n] prisoners on [n] elements returns, whatever the bound. *)
Lemma runSimulation_with_returns (n b : Z) (s : set_union) (rnd : rng) (k : nat) :
  ∃ t, runSimulation_with n b s rnd k = Some t.
Proof.
  destruct (loop_char b (Z.to_nat n) rnd (Z.to_nat (n - 1)) (set_union_init blank n) k)
    as (t & Ht & _); [apply init_inv | lia |].
  by exists t.
Qed.

Lemma trial_outcomes_length (n b : Z) (rnd : rng) (count : nat) :
  ∀ k, length (trial_outcomes n b rnd count k) = count.
Proof.
  induction count as [|count IH]; intros k; [done|]. cbn [trial_outcomes].
  destruct (runSimulation_with_returns n b blank rnd k) as [t ->].
  simpl. by rewrite IH.
Qed.

(** The loop of [simulateAndStats] runs its [count] trials one after the
    other on the generator of the task. *)
Lemma trials_loop_run (w : world) (t : task) (count : nat) :
  ∀ (s : set_union) (sum : Z) (st : state),
  let rs := trial_outcomes DEFAULT_NUM_PRISONERS MAX_TRIALS
              (generator (env_of w t) (rand_seed st)) count (rand_calls st) in
  ∃ k', trials_loop w t count s sum st
        = (Ret (sum + Zsum (found_value <$> rs)),
           State (rand_seed st) k' (successes st)
                 (log st ++ (pair t <$> (Trial <$> rs)))).
Proof.
  induction count as [|count IH]; intros s sum st rs.
  - exists (rand_calls st). subst rs. simpl.
    rewrite Z.add_0_r, app_nil_r. by destruct st.
  - subst rs. cbn [trials_loop trial_outcomes]. rewrite bind_run.
    unfold call_runSimulation.
    change (runSimulation s) with (runSimulation_with DEFAULT_NUM_PRISONERS MAX_TRIALS blank).
    destruct (runSimulation_with_returns DEFAULT_NUM_PRISONERS MAX_TRIALS blank
                (generator (env_of w t) (rand_seed st)) (rand_calls st))
      as [[[r s'] k1] Hr].
    rewrite Hr.
    destruct (IH s' (sum + found_value r)
                (State (rand_seed st) k1 (successes st) (log st ++ [(t, Trial r)])))
      as [k' Hk'].
    exists k'. cbn [fst snd]. rewrite Hk'. cbn [rand_seed rand_calls successes log].
    unfold result, calls_made. cbn [fst snd fmap list_fmap Zsum foldr].
    rewrite <- app_assoc. fold (Zsum (found_value <$> trial_outcomes DEFAULT_NUM_PRISONERS MAX_TRIALS
      (generator (env_of w t) (rand_seed st)) count k1)).
    by rewrite Z.add_assoc.
Qed.

(** [simulateAndStats]: the seeding, and after it the trials; or the exit
    with [EXIT_FAILURE], before anything else is done. *)
Lemma simulateAndStats_run (w : world) (t : task) (n : Z) (caller : string) (st : state) :
  ∃ k', simulateAndStats w t n caller st
        = (match urandom (env_of w t) with
           | Read seedVal =>
               Ret (Zsum (found_value <$>
                      trial_outcomes DEFAULT_NUM_PRISONERS MAX_TRIALS
                        (generator (env_of w t) seedVal) (Z.to_nat n) 0))
           | _ => Exit EXIT_FAILURE
           end,
           State (match urandom (env_of w t) with
                  | Read seedVal => seedVal
                  | _ => rand_seed st
                  end) k' (successes st)
                 (log st ++ (pair t <$> simulation_events w t n))).
Proof.
  unfold simulateAndStats, seed, simulation_events.
  destruct (urandom (env_of w t)) as [| |seedVal].
  - exists (rand_calls st). run_M. by rewrite <- app_assoc.
  - exists (rand_calls st). run_M. by rewrite <- !app_assoc.
  - run_M.
    destruct (trials_loop_run w t (Z.to_nat n) blank 0
      (State seedVal 0 (successes st)
         (((log st ++ [(t, Fopen true)]) ++ [(t, Fread true)]) ++ [(t, Srandom seedVal)])))
      as [k' Hk'].
    exists k'. rewrite Hk'. cbn [rand_seed rand_calls successes log].
    rewrite Z.add_0_l, fmap_app, <- !app_assoc. done.
Qed.

(** [splitSimulation]: the banner, then [simulateAndStats] for the number
    of trials of the parameter. *)
Lemma splitSimulation_run (w : world) (t : task) (p : simParam) (st : state) :
  ∃ sd k' a', splitSimulation w t p st
        = (match urandom (env_of w t) with
           | Read _ => Ret tt
           | _ => Exit EXIT_FAILURE
           end,
           State sd k' a'
             (log st ++ (pair t <$> Banner (taskName p) (taskNum p + 1) (numSimulations p)
                                      :: simulation_events w t (numSimulations p)))).
Proof.
  unfold splitSimulation. rewrite bind_run. cbn [emit].
  set (st1 := State _ _ _ _). rewrite bind_run.
  assert (Hsim : ∀ caller, ∃ k', simulateAndStats w t (numSimulations p) caller st1
        = (match urandom (env_of w t) with
           | Read seedVal =>
               Ret (Zsum (found_value <$>
                      trial_outcomes DEFAULT_NUM_PRISONERS MAX_TRIALS
                        (generator (env_of w t) seedVal) (Z.to_nat (numSimulations p)) 0))
           | _ => Exit EXIT_FAILURE
           end,
           State (match urandom (env_of w t) with
                  | Read seedVal => seedVal
                  | _ => rand_seed st
                  end) k' (successes st)
                 (log st ++ (pair t <$> Banner (taskName p) (taskNum p + 1) (numSimulations p)
                                      :: simulation_events w t (numSimulations p))))).
  { intros caller. destruct (simulateAndStats_run w t (numSimulations p) caller st1) as [k' Hk'].
    exists k'. rewrite Hk'. subst st1. cbn [rand_seed successes log].
    by rewrite <- app_assoc. }
  destruct (_ >? 20);
    match goal with |- context [simulateAndStats w t _ ?c st1] =>
      destruct (Hsim c) as [k' ->] end;
    destruct (urandom (env_of w t)); cbn; eauto.
Qed.

(** *** The workers *)

Lemma state_eta (st : state) :
  State (rand_seed st) (rand_calls st) (successes st) (log st) = st.
Proof. by destruct st. Qed.

(** The loop that creates the threads, from worker [i] on: every worker
    that gets to run adds its own events, and a worker without entropy ends
    the process. *)
Lemma threads_loop_run (w : world) (q : Z) (count : nat) : ∀ (i : nat) (st : state),
  ∃ m sd k' a' o,
    for_loop count (Z.of_nat i)
      (λ i, splitSimulation w (Worker (Z.to_nat i)) (SimParam "Thread" i q)) st
    = (o, State sd k' a' (log st ++ workers_log w "Thread" q i m)) ∧
    (m ≤ count)%nat ∧
    (o = Ret tt ∨ o = Exit EXIT_FAILURE) ∧
    (entropy_for_workers w → o = Ret tt ∧ m = count).
Proof.
  induction count as [|count IH]; intros i st.
  - exists 0%nat, (rand_seed st), (rand_calls st), (successes st), (Ret tt).
    cbn [for_loop workers_log]. rewrite app_nil_r, state_eta.
    split_and!; [done | lia | by left | done].
  - cbn [for_loop]. replace (Z.of_nat i + 1) with (Z.of_nat (S i)) by lia.
    rewrite bind_run, Nat2Z.id.
    destruct (splitSimulation_run w (Worker i) (SimParam "Thread" (Z.of_nat i) q) st)
      as (sd & k1 & a1 & ->). cbn [taskName taskNum numSimulations].
    destruct (urandom (env_of w (Worker i))) as [| |seedVal] eqn:Hu.
    + exists 1%nat, sd, k1, a1, (Exit EXIT_FAILURE). cbn [workers_log].
      rewrite app_nil_r. split_and!; [done | lia | by right |].
      intros He. destruct (He i) as [? ?]. congruence.
    + exists 1%nat, sd, k1, a1, (Exit EXIT_FAILURE). cbn [workers_log].
      rewrite app_nil_r. split_and!; [done | lia | by right |].
      intros He. destruct (He i) as [? ?]. congruence.
    + destruct (IH (S i) (State sd k1 a1 (log st ++
        (pair (Worker i) <$> Banner "Thread" (Z.of_nat i + 1) q
                               :: simulation_events w (Worker i) q))))
        as (m & sd' & k' & a' & o & -> & Hm & Ho & He).
      exists (S m), sd', k', a', o. cbn [workers_log log].
      rewrite <- app_assoc. split_and!; [done | lia | done |].
      intros Hent. destruct (He Hent) as [-> ->]. done.
Qed.

(** The loop that forks the children, from child [i] on: the parent goes
    on whatever a child does, and ends when a [fork] fails. *)
Lemma processes_loop_run (w : world) (q : Z) (count : nat) : ∀ (i : nat) (st : state),
  ∃ m a' o tail,
    for_loop count (Z.of_nat i)
      (λ i, if fork_ok w (Z.to_nat i)
            then in_child (splitSimulation w (Worker (Z.to_nat i)) (SimParam "Process" i q);;
                           exit EXIT_SUCCESS)
            else emit Main (Perror "fork failed");; exit EXIT_FAILURE) st
    = (o, State (rand_seed st) (rand_calls st) a'
            (log st ++ workers_log w "Process" q i m ++ (pair Main <$> tail))) ∧
    (m ≤ count)%nat ∧
    (o = Ret tt ∧ tail = [] ∨ o = Exit EXIT_FAILURE ∧ tail = [Perror "fork failed"]) ∧
    ((∀ j, fork_ok w j = true) → o = Ret tt ∧ m = count).
Proof.
  induction count as [|count IH]; intros i st.
  - exists 0%nat, (successes st), (Ret tt), []. cbn [for_loop workers_log].
    cbn. rewrite app_nil_r, state_eta.
    split_and!; [done | lia | by left | done].
  - cbn [for_loop]. replace (Z.of_nat i + 1) with (Z.of_nat (S i)) by lia.
    rewrite bind_run, Nat2Z.id.
    destruct (fork_ok w i) eqn:Hf.
    + unfold in_child at 1. rewrite bind_run.
      destruct (splitSimulation_run w (Worker i) (SimParam "Process" (Z.of_nat i) q) st)
        as (sd & k1 & a1 & ->). cbn [taskName taskNum numSimulations].
      set (l1 := log st ++ _).
      destruct (urandom (env_of w (Worker i)));
        (cbn [exit snd successes log];
         destruct (IH (S i) (State (rand_seed st) (rand_calls st) a1 l1))
           as (m & a' & o & tail & -> & Hm & Ho & He);
         exists (S m), a', o, tail; cbn [workers_log log rand_seed rand_calls];
         subst l1; rewrite <- !app_assoc;
         split_and!; [done | lia | done |];
         intros Hall; destruct (He Hall) as [-> ->]; done).
    + exists 0%nat, (successes st), (Exit EXIT_FAILURE), [Perror "fork failed"].
      run_M. cbn [workers_log]. cbn.
      split_and!; [done | lia | by right |].
      intros Hall. rewrite Hall in Hf. done.
Qed.

Lemma threads_run (w : world) (n numThreads : Z) (st : state) :
  0 < numThreads →
  ∃ m sd k' a' o tail,
    simulateAndStatsWithThreads w n numThreads st
    = (o, State sd k' a'
            (log st ++ workers_log w "Thread" (n ÷ numThreads) 0 m ++ (pair Main <$> tail))) ∧
    (m ≤ Z.to_nat numThreads)%nat ∧
    (o = Ret tt ∧ (∃ sum, tail = [PrintStats sum (n ÷ numThreads * numThreads) "All threads"])
     ∨ o = Exit EXIT_FAILURE ∧ tail = []) ∧
    (entropy_for_workers w → o = Ret tt ∧ m = Z.to_nat numThreads).
Proof.
  intros Hpos. unfold simulateAndStatsWithThreads.
  destruct (Z.leb_spec numThreads 0) as [|_]; [lia|]. run_M.
  destruct (threads_loop_run w (n ÷ numThreads) (Z.to_nat numThreads) 0
              (State (rand_seed st) (rand_calls st)
                 (replicate (Z.to_nat numThreads) 0) (log st)))
    as (m & sd & k' & a' & o & Hrun & Hm & Ho & He).
  change (Z.of_nat 0) with 0 in Hrun. rewrite Hrun. cbn [log] in *.
  destruct Ho as [-> | ->].
  - run_M. unfold printStats, emit. cbn [rand_seed rand_calls successes log].
    exists m, sd, k', a', (Ret tt), [PrintStats (Zsum a') (n ÷ numThreads * numThreads) "All threads"].
    rewrite <- app_assoc. split_and!; [done | done | left; eauto | done].
  - exists m, sd, k', a', (Exit EXIT_FAILURE), []. cbn [fmap list_fmap].
    rewrite app_nil_r. split_and!; [done | done | by right | done].
Qed.

Lemma processes_run (w : world) (n numProcesses : Z) (st : state) :
  0 < numProcesses →
  ∃ m sd k' a' o tail,
    simulateAndStatsWithProcesses w n numProcesses st
    = (o, State sd k' a'
            (log st ++ workers_log w "Process" (n ÷ numProcesses) 0 m
               ++ (pair Main <$> tail))) ∧
    (m ≤ Z.to_nat numProcesses)%nat ∧
    (o = Ret tt ∧ (∃ sum, tail = [PrintStats sum (n ÷ numProcesses * numProcesses) "All processes"])
     ∨ o = Exit EXIT_FAILURE ∧ tail = [Perror "fork failed"]) ∧
    ((∀ j, fork_ok w j = true) → o = Ret tt ∧ m = Z.to_nat numProcesses).
Proof.
  intros Hpos. unfold simulateAndStatsWithProcesses.
  destruct (Z.leb_spec numProcesses 0) as [|_]; [lia|]. run_M.
  destruct (processes_loop_run w (n ÷ numProcesses) (Z.to_nat numProcesses) 0
              (State (rand_seed st) (rand_calls st)
                 (replicate (Z.to_nat numProcesses) 0) (log st)))
    as (m & a' & o & tail & Hrun & Hm & Ho & He).
  change (Z.of_nat 0) with 0 in Hrun. rewrite Hrun. cbn [log rand_seed rand_calls] in *.
  destruct Ho as [[-> ->] | [-> ->]].
  - run_M. unfold printStats, emit. cbn [rand_seed rand_calls successes log fmap list_fmap].
    exists m, (rand_seed st), (rand_calls st), a', (Ret tt),
      [PrintStats (Zsum a') (n ÷ numProcesses * numProcesses) "All processes"].
    rewrite app_nil_r. rewrite <- app_assoc.
    split_and!; [done | done | left; eauto | done].
  - exists m, (rand_seed st), (rand_calls st), a', (Exit EXIT_FAILURE), [Perror "fork failed"].
    split_and!; [done | done | by right | done].
Qed.

(** *** Reading the log *)

Lemma omap_cons {A B} (f : A → option B) (x : A) (l : list A) :
  omap f (x :: l) = match f x with Some y => y :: omap f l | None => omap f l end.
Proof. reflexivity. Qed.

Lemma trial_results_app (t : task) (l1 l2 : list (task * event)) :
  trial_results t (l1 ++ l2) = trial_results t l1 ++ trial_results t l2.
Proof. apply omap_app. Qed.

Lemma trial_results_tagged (t t' : task) (evs : list event) :
  trial_results t (pair t' <$> evs) = if decide (t' = t) then omap trial_of evs else [].
Proof.
  unfold trial_results. induction evs as [|ev evs IH].
  - by destruct (decide _).
  - rewrite fmap_cons, omap_cons. cbn [fst snd].
    destruct (decide (t' = t)) as [Heq|Hne].
    + by rewrite IH.
    + by rewrite IH.
Qed.

Lemma trials_of_trials (rs : list found_t) : omap trial_of (Trial <$> rs) = rs.
Proof. induction rs as [|r rs IH]; [done|]. cbn. by f_equal. Qed.

Lemma trials_of_simulation_events (w : world) (t : task) (n : Z) :
  omap trial_of (simulation_events w t n)
  = match urandom (env_of w t) with
    | Read seedVal =>
        trial_outcomes DEFAULT_NUM_PRISONERS MAX_TRIALS
          (generator (env_of w t) seedVal) (Z.to_nat n) 0
    | _ => []
    end.
Proof.
  unfold simulation_events. destruct (urandom (env_of w t)); [done | done |].
  rewrite omap_app. by rewrite trials_of_trials.
Qed.

Lemma trial_results_workers_log (w : world) (name : string) (q : Z) (m : nat) :
  ∀ (i : nat) (t : task),
  trial_results t (workers_log w name q i m)
  = match t with
    | Worker j =>
        if bool_decide (i ≤ j < i + m)%nat
        then omap trial_of (simulation_events w (Worker j) q)
        else []
    | Main => []
    end.
Proof.
  induction m as [|m IH]; intros i t; cbn [workers_log].
  - destruct t as [|j]; [done|]. by rewrite bool_decide_eq_false_2 by lia.
  - rewrite trial_results_app, trial_results_tagged, IH.
    destruct t as [|j].
    + by rewrite decide_False by done.
    + destruct (decide (Worker i = Worker j)) as [[= ->]|Hne].
      * rewrite (bool_decide_eq_false_2 (S j ≤ j < S j + m)%nat) by lia.
        rewrite (bool_decide_eq_true_2 (j ≤ j < j + S m)%nat) by lia.
        rewrite omap_cons. cbn [trial_of]. by rewrite app_nil_r.
      * assert (i ≠ j) by congruence. cbn [app].
        destruct (bool_decide_reflect (S i ≤ j < S i + m)%nat);
          [rewrite bool_decide_eq_true_2 by lia | rewrite bool_decide_eq_false_2 by lia];
          done.
Qed.

Lemma all_trials_app (l1 l2 : list (task * event)) :
  all_trials (l1 ++ l2) = (all_trials l1 + all_trials l2)%nat.
Proof. unfold all_trials. by rewrite omap_app, length_app. Qed.

Lemma all_trials_tagged (t : task) (evs : list event) :
  all_trials (pair t <$> evs) = length (omap trial_of evs).
Proof.
  unfold all_trials. f_equal. induction evs as [|ev evs IH]; [done|].
  cbn. rewrite IH. done.
Qed.

Lemma all_trials_workers_log (w : world) (name : string) (q : Z) (m : nat) :
  entropy_for_workers w →
  ∀ i, all_trials (workers_log w name q i m) = (m * Z.to_nat q)%nat.
Proof.
  intros He. induction m as [|m IH]; intros i; [done|]. cbn [workers_log].
  rewrite all_trials_app, all_trials_tagged, IH, omap_cons. cbn [trial_of].
  rewrite trials_of_simulation_events. destruct (He i) as [sd ->].
  rewrite trial_outcomes_length. lia.
Qed.

Lemma reports_app (l1 l2 : list (task * event)) :
  reports (l1 ++ l2) = reports l1 ++ reports l2.
Proof. apply omap_app. Qed.

Lemma reports_simulation_events (w : world) (t : task) (n : Z) :
  reports (pair t <$> simulation_events w t n) = [].
Proof.
  unfold simulation_events. destruct (urandom (env_of w t)); [done | done |].
  rewrite fmap_app, reports_app. cbn.
  induction (trial_outcomes _ _ _ _ _) as [|r rs IH]; [done|]. by cbn.
Qed.

Lemma reports_workers_log (w : world) (name : string) (q : Z) (m : nat) :
  ∀ i, reports (workers_log w name q i m) = [].
Proof.
  induction m as [|m IH]; intros i; [done|]. cbn [workers_log].
  rewrite reports_app, IH, app_nil_r. rewrite fmap_cons.
  change (reports (?x :: ?l)) with (reports [x] ++ reports l).
  by rewrite reports_simulation_events.
Qed.

(** ** The process: what the specification states *)

(** C9. [simulateAndStats] starts with [seed]. When [/dev/urandom] cannot
    be opened or cannot be read, the process exits with [EXIT_FAILURE]
    after the one attempt: nothing was given to [srandom], and no trial was
    run. Otherwise the value read is given to [srandom] once, and the [n]
    trials follow it. *)
Theorem simulateAndStats_seeds_once
  (w : world) (t : task) (n : Z) (caller : string) (st : state) :
  match urandom (env_of w t) with
  | NoOpen =>
      simulateAndStats w t n caller st
      = (Exit EXIT_FAILURE,
         State (rand_seed st) (rand_calls st) (successes st)
           (log st ++ [(t, Fopen false); (t, Perror "Couldn't open urandom file")]))
  | NoRead =>
      simulateAndStats w t n caller st
      = (Exit EXIT_FAILURE,
         State (rand_seed st) (rand_calls st) (successes st)
           (log st ++ [(t, Fopen true); (t, Fread false);
                       (t, Perror "Couldn't read urandom file")]))
  | Read seedVal =>
      ∃ rs k',
        length rs = Z.to_nat n ∧
        simulateAndStats w t n caller st
        = (Ret (Zsum (found_value <$> rs)),
           State seedVal k' (successes st)
             (log st ++ [(t, Fopen true); (t, Fread true); (t, Srandom seedVal)]
                ++ (pair t <$> (Trial <$> rs))))
  end ∧ EXIT_FAILURE ≠ EXIT_SUCCESS.
Proof.
  split; [|done].
  destruct (simulateAndStats_run w t n caller st) as [k' Hrun].
  unfold simulation_events in Hrun.
  destruct (urandom (env_of w t)) as [| |seedVal] eqn:Hu.
  - unfold simulateAndStats, seed. rewrite Hu. run_M. by rewrite <- !app_assoc.
  - unfold simulateAndStats, seed. rewrite Hu. run_M. by rewrite <- !app_assoc.
  - eexists _, k'. split; [apply trial_outcomes_length|].
    rewrite Hrun. by rewrite fmap_app.
Qed.

Lemma split_evenly_workers (w : world) (name : string) (n numWorkers : Z)
  (sd : N) (k' : nat) (a' : list Z) (sum : Z) (caller : string) :
  0 ≤ n → 1 ≤ numWorkers → entropy_for_workers w →
  split_evenly n numWorkers
    (Ret tt, State sd k' a'
       ([] ++ workers_log w name (n ÷ numWorkers) 0 (Z.to_nat numWorkers)
           ++ (pair Main <$> [PrintStats sum (n ÷ numWorkers * numWorkers) caller]))).
Proof.
  intros Hn Hw He.
  assert (Hq : 0 ≤ n ÷ numWorkers) by (apply Z.quot_pos; lia).
  unfold split_evenly. cbn [fst snd log app]. split_and!.
  - done.
  - intros i Hi. unfold trials_run.
    rewrite trial_results_app, trial_results_workers_log, trial_results_tagged.
    rewrite bool_decide_eq_true_2 by lia. rewrite decide_False by done.
    rewrite app_nil_r, trials_of_simulation_events.
    destruct (He i) as [seedVal ->]. rewrite trial_outcomes_length. lia.
  - rewrite all_trials_app, all_trials_workers_log by done.
    rewrite all_trials_tagged. cbn [omap list_omap trial_of length]. nia.
  - exists sum, caller. rewrite reports_app, reports_workers_log. done.
Qed.

(** C6. When [n ≥ 0] trials are split over [numWorkers ≥ 1] threads or
    processes that all get their seed (and every [fork] succeeds), each
    worker runs exactly [n ÷ numWorkers] trials, the run as a whole
    [(n ÷ numWorkers) * numWorkers], and that number is the one reported:
    the remainder of the division is dropped. *)
Theorem workers_split_trials (w : world) (n numWorkers : Z) :
  0 ≤ n → 1 ≤ numWorkers → entropy_for_workers w → (∀ i, fork_ok w i = true) →
  split_evenly n numWorkers (simulateAndStatsWithThreads w n numWorkers start) ∧
  split_evenly n numWorkers (simulateAndStatsWithProcesses w n numWorkers start).
Proof.
  intros Hn Hw He Hf. split.
  - destruct (threads_run w n numWorkers start ltac:(lia))
      as (m & sd & k' & a' & o & tail & -> & _ & Ho & Hall).
    destruct (Hall He) as [-> ->].
    destruct Ho as [[_ [sum ->]]|[? _]]; [|done].
    by apply (split_evenly_workers w _ n numWorkers sd k' a' sum).
  - destruct (processes_run w n numWorkers start ltac:(lia))
      as (m & sd & k' & a' & o & tail & -> & _ & Ho & Hall).
    destruct (Hall Hf) as [-> ->].
    destruct Ho as [[_ [sum ->]]|[? _]]; [|done].
    by apply (split_evenly_workers w _ n numWorkers sd k' a' sum).
Qed.

Lemma demo_world_entropy : entropy_for_workers demo_world.
Proof. intros i. by exists 42%N. Defined.

Lemma workers_split_trials_witness :
  0 ≤ 10 ∧ 1 ≤ 3 ∧ entropy_for_workers demo_world ∧ (∀ i, fork_ok demo_world i = true) ∧
  split_evenly 10 3 (simulateAndStatsWithThreads demo_world 10 3 start) ∧
  split_evenly 10 3 (simulateAndStatsWithProcesses demo_world 10 3 start) ∧
  10 ÷ 3 * 3 = 9.
Proof.
  split; [lia|]. split; [lia|]. split; [exact demo_world_entropy|].
  split; [intros i; reflexivity|].
  split; [|split; [|reflexivity]];
    apply (workers_split_trials demo_world 10 3); try lia;
    try exact demo_world_entropy; intros i; reflexivity.
Defined.

(** *** [main] *)

Lemma seq_mret_state {A B} (m : M A) (x : B) (st : state) :
  ((m ≫= λ _, mret x) st).2 = (m st).2.
Proof. rewrite bind_run. by destruct (m st) as [[?|?|] ?]. Qed.

Lemma printUsage_run (st : state) :
  printUsage Main st
  = (Ret tt, State (rand_seed st) (rand_calls st) (successes st)
               (log st ++ [(Main, Puts usage_text)])).
Proof. reflexivity. Qed.

(** On a command line it does not recognise, the statement of [main] before
    [return] is the call of [printUsage]. *)
Lemma main_unrecognised (w : world) (argv : list string) (st : state) :
  recognised argv = false →
  main w argv st
  = (Ret EXIT_SUCCESS,
     State (rand_seed st) (rand_calls st) (successes st)
       (log st ++ [(Main, Puts usage_text)])).
Proof.
  intros Hrec. unfold main. rewrite bind_run.
  destruct (Z.eqb_spec (Z.of_nat (length argv)) 3) as [H3|H3].
  { destruct argv as [|a0 [|a1 [|a2 [|a3 rest]]]]; cbn [length] in H3; try lia.
    cbn [recognised] in Hrec. change (arg [a0; a1; a2] 2) with a2.
    by rewrite Hrec, printUsage_run. }
  destruct (Z.eqb_spec (Z.of_nat (length argv)) 4) as [H4|H4].
  { destruct argv as [|a0 [|a1 [|a2 [|a3 [|a4 rest]]]]]; cbn [length] in H4; try lia.
    cbn [recognised] in Hrec. apply orb_false_elim in Hrec as [Hp Ht].
    change (arg [a0; a1; a2; a3] 2) with a2.
    by rewrite Hp, Ht, printUsage_run. }
  by rewrite printUsage_run.
Qed.

(** C8, as amended. On every command line that [main] does not recognise
    (the number of arguments is neither 3 nor 4, or the first character of
    [argv[2]] is not the letter of a mode for that number) it prints the
    usage text, does nothing else, and returns [EXIT_SUCCESS], which is 0;
    and whatever the command line, [main] returns no other value. *)
Theorem main_usage_and_status (w : world) (argv : list string) (st : state) :
  (recognised argv = false →
   main w argv st
   = (Ret EXIT_SUCCESS,
      State (rand_seed st) (rand_calls st) (successes st)
        (log st ++ [(Main, Puts usage_text)]))) ∧
  (∀ status, (main w argv st).1 = Ret status → status = EXIT_SUCCESS) ∧
  EXIT_SUCCESS = 0.
Proof.
  split; [apply main_unrecognised|]. split; [|done].
  intros status. unfold main. rewrite bind_run.
  destruct (_ st) as [[[]|?|] ?]; cbn; congruence.
Qed.

Lemma main_usage_and_status_witness :
  recognised ["simuBestop"; "10"; "x"; "3"] = false ∧
  main demo_world ["simuBestop"; "10"; "x"; "3"] start
  = (Ret 0, State 1 0 [] [(Main, Puts usage_text)]).
Proof.
  split; [reflexivity|].
  exact (proj1 (main_usage_and_status demo_world ["simuBestop"; "10"; "x"; "3"] start)
           eq_refl).
Defined.

(** C8, as stated, fails: the command line [simuBestop 2 sx] has none of the
    three accepted forms, and [main] runs two trials on it and prints no
    usage text. *)
Lemma main_accepts_mode_prefix :
  accepted_form ["simuBestop"; "2"; "sx"] = false ∧
  (main demo_world ["simuBestop"; "2"; "sx"] start).1 = Ret EXIT_SUCCESS ∧
  usages (log (main demo_world ["simuBestop"; "2"; "sx"] start).2) = [] ∧
  trials_run Main (log (main demo_world ["simuBestop"; "2"; "sx"] start).2) = 2%nat ∧
  reports (log (main demo_world ["simuBestop"; "2"; "sx"] start).2)
  = [(0, 2, "Sequence (Single Thread / Process)")].
Proof. vm_compute. done. Qed.

(** *** The constants of the trial *)

Lemma union_set_lengths (s s' : set_union) (a b : Z) :
  union_set s a b = Some s' →
  length (p s') = length (p s) ∧ length (size s') = length (size s).
Proof.
  unfold union_set. intros H.
  destruct (find s a) as [ra|]; [|done]. destruct (find s b) as [rb|]; [|done].
  cbn in H. destruct (ra =? rb); [by simplify_eq|].
  destruct (get (size s) ra) as [sa|]; [|done].
  destruct (get (size s) rb) as [sb|]; [|done].
  cbn in H. simplify_eq. cbn. unfold set. by rewrite !length_insert.
Qed.

Lemma loop_lengths (b : Z) (rnd : rng) (c : nat) : ∀ (s : set_union) (k : nat) (t : trial),
  randomizeArray_loop b rnd c s k = Some t →
  length (p (final_set t)) = length (p s) ∧
  length (size (final_set t)) = length (size s).
Proof.
  induction c as [|c IH]; intros s k t H.
  - by simplify_eq/=.
  - cbn [randomizeArray_loop] in H.
    destruct (union_set s _ _) as [s1|] eqn:Hu; [|done]. cbn in H.
    destruct (partition_size s1 _) as [sz|]; [|done]. cbn in H.
    destruct (union_set_lengths _ _ _ _ Hu) as [Hp Hs].
    destruct (sz >? b).
    + by simplify_eq/=.
    + apply IH in H. by rewrite <- Hp, <- Hs.
Qed.

Lemma trials_are_nil (NP B : Z) (w : world) : trials_are NP B w [].
Proof. intros t. by left. Qed.

Lemma trials_are_simulation (w : world) (t : task) (n : Z) (tail : list event) :
  omap trial_of tail = [] →
  trials_are DEFAULT_NUM_PRISONERS MAX_TRIALS w
    ([] ++ (pair t <$> simulation_events w t n) ++ (pair Main <$> tail)).
Proof.
  intros Htail t0. cbn [app].
  rewrite trial_results_app, !trial_results_tagged, Htail.
  assert (Hnil : (if decide (Main = t0) then [] else []) = @nil found_t)
    by (by destruct (decide _)).
  rewrite Hnil, app_nil_r, trials_of_simulation_events.
  destruct (decide (t = t0)) as [->|]; [|by left].
  destruct (urandom (env_of w t0)) as [| |seedVal] eqn:Hu; [by left | by left |].
  right. by exists (Z.to_nat n), seedVal.
Qed.

Lemma trials_are_workers (w : world) (name : string) (q : Z) (m : nat) (tail : list event) :
  omap trial_of tail = [] →
  trials_are DEFAULT_NUM_PRISONERS MAX_TRIALS w
    ([] ++ workers_log w name q 0 m ++ (pair Main <$> tail)).
Proof.
  intros Htail t0. cbn [app].
  rewrite trial_results_app, trial_results_workers_log, trial_results_tagged, Htail.
  assert (Hnil : (if decide (Main = t0) then [] else []) = @nil found_t)
    by (by destruct (decide _)).
  rewrite Hnil, app_nil_r. destruct t0 as [|j]; [by left|].
  destruct (bool_decide _); [|by left].
  rewrite trials_of_simulation_events.
  destruct (urandom (env_of w (Worker j))) as [| |seedVal] eqn:Hu; [by left | by left |].
  right. by exists (Z.to_nat q), seedVal.
Qed.

(** Whatever the command line, the trials that [main] runs are trials of
    [DEFAULT_NUM_PRISONERS] prisoners with bound [MAX_TRIALS]. *)
Lemma main_trials (w : world) (argv : list string) :
  trials_are DEFAULT_NUM_PRISONERS MAX_TRIALS w (log (main w argv start).2).
Proof.
  unfold main. rewrite seq_mret_state.
  assert (Husage : trials_are DEFAULT_NUM_PRISONERS MAX_TRIALS w
                     (log (printUsage Main start).2)).
  { intros t. left. cbn. by destruct (decide _). }
  assert (Hthreads : ∀ n nw, trials_are DEFAULT_NUM_PRISONERS MAX_TRIALS w
                     (log (simulateAndStatsWithThreads w n nw start).2)).
  { intros n nw. destruct (Z.leb_spec nw 0) as [Hle|Hgt].
    - unfold simulateAndStatsWithThreads. apply Z.leb_le in Hle. rewrite Hle.
      apply trials_are_nil.
    - destruct (threads_run w n nw start Hgt)
        as (m & sd & k' & a' & o & tail & -> & _ & Ho & _).
      cbn [snd log]. apply trials_are_workers.
      by destruct Ho as [[_ [sum ->]]|[_ ->]]. }
  assert (Hprocs : ∀ n nw, trials_are DEFAULT_NUM_PRISONERS MAX_TRIALS w
                     (log (simulateAndStatsWithProcesses w n nw start).2)).
  { intros n nw. destruct (Z.leb_spec nw 0) as [Hle|Hgt].
    - unfold simulateAndStatsWithProcesses. apply Z.leb_le in Hle. rewrite Hle.
      apply trials_are_nil.
    - destruct (processes_run w n nw start Hgt)
        as (m & sd & k' & a' & o & tail & -> & _ & Ho & _).
      cbn [snd log]. apply trials_are_workers.
      by destruct Ho as [[_ [sum ->]]|[_ ->]]. }
  destruct (_ =? 3).
  { destruct (starts_with _ _); [|done]. rewrite bind_run.
    destruct (simulateAndStats_run w Main (atoi (arg argv 1))
                "Sequence (Single Thread / Process)" start) as [k' ->].
    destruct (urandom (env_of w Main)) as [| |seedVal] eqn:Hu.
    - cbn [snd log]. rewrite <- (app_nil_r (_ <$> _)).
      by apply (trials_are_simulation w Main _ []).
    - cbn [snd log]. rewrite <- (app_nil_r (_ <$> _)).
      by apply (trials_are_simulation w Main _ []).
    - unfold printStats, emit. cbn [snd log rand_seed rand_calls successes].
      rewrite <- app_assoc.
      by apply (trials_are_simulation w Main _ [PrintStats _ _ _]). }
  destruct (_ =? 4); [|done].
  destruct (starts_with _ "p"); [done|].
  destruct (starts_with _ "t"); done.
Qed.

(** C10. The number of prisoners and the bound are the constants 100 and
    50 of the program text: [runSimulation] is [randomizeArray] with [size]
    100; [randomizeArray] initialises 100 elements and compares with 50
    whatever its [size], and leaves 100 elements behind; and whatever the
    command line, every trial that [main] runs is a trial of 100 prisoners
    with bound 50. *)
Theorem trials_fixed_at_compile_time :
  DEFAULT_NUM_PRISONERS = 100 ∧ MAX_TRIALS = 50 ∧
  (∀ s rnd k, runSimulation s rnd k = randomizeArray s 100 rnd k) ∧
  (∀ s size rnd k,
     randomizeArray s size rnd k
     = randomizeArray_loop 50 rnd (Z.to_nat (size - 1)) (set_union_init s 100) k) ∧
  (∀ s size rnd k,
     from_option
       (λ t, length (p (final_set t)) = 100%nat ∧
             length (UnionFind.size (final_set t)) = 100%nat)
       True (randomizeArray s size rnd k)) ∧
  (∀ w argv, trials_are 100 50 w (log (main w argv start).2)).
Proof.
  split_and!; try done.
  - intros s sz rnd k. destruct (randomizeArray s sz rnd k) as [t|] eqn:H; [|done].
    cbn. apply loop_lengths in H. done.
  - apply main_trials.
Qed.

(** ** The numbers of [printStats]: what the specification states *)

Module StatsFacts.
Import Stats.

Lemma sqrt_between (x lo hi : R) :
  (0 <= lo → lo * lo <= x → x <= hi * hi → 0 <= hi → lo <= R_sqrt.sqrt x <= hi)%R.
Proof.
  intros Hlo H1 H2 Hhi. split.
  - rewrite <- (sqrt_square lo) by done. by apply sqrt_le_1_alt.
  - rewrite <- (sqrt_square hi) by done. by apply sqrt_le_1_alt.
Qed.

(** The formulas, in exact arithmetic. *)
Lemma formulas_exact (sum n : Z) :
  1 < n →
  let r := printStats_values (H := exact) sum n in
  (mean r = IZR sum / IZR n ∧
   var r = IZR sum * (1 - mean r) / (IZR n - 1) ∧
   var r = IZR n * mean r * (1 - mean r) / (IZR n - 1) ∧
   ci_low r = mean r - 1.96 * R_sqrt.sqrt (var r / IZR n) ∧
   ci_high r = mean r + 1.96 * R_sqrt.sqrt (var r / IZR n))%R.
Proof.
  intros Hn. cbn -[IZR]. rewrite minus_IZR, Rplus_0_r.
  assert (IZR n ≠ 0%R) by (apply not_0_IZR; lia).
  assert ((IZR n - 1)%R ≠ 0%R).
  { intros Heq. apply Rminus_diag_uniq in Heq.
    apply (eq_IZR n 1) in Heq. lia. }
  split_and!; try reflexivity. field. done.
Qed.

(** The scenario of the specification, in exact arithmetic. *)
Lemma scenario_exact :
  let r := printStats_values (H := exact) 31 100 in
  (mean r = 0.31 ∧
   Rabs (var r - 0.2161) < 0.0001 ∧
   Rabs (ci_low r - 0.2188) < 0.0001 ∧
   Rabs (ci_high r - 0.4012) < 0.0001)%R.
Proof.
  cbn -[IZR]. rewrite minus_IZR, Rplus_0_r.
  set (m := (31 / 100)%R).
  set (v := (31 * (1 - m) / (100 - 1))%R).
  assert (Hv : v = (2139 / 9900)%R) by (subst v m; field).
  assert (Hs : (0.04648 <= R_sqrt.sqrt (v / 100) <= 0.04649)%R).
  { apply sqrt_between; rewrite ?Hv; lra. }
  split_and!.
  - subst m. lra.
  - rewrite Hv. apply Rabs_def1; lra.
  - apply Rabs_def1; subst m; lra.
  - apply Rabs_def1; subst m; lra.
Qed.

(** The scenario as the program computes it, in [double]s: the numbers
    that [%f] prints as 0.310000, 0.216061, 0.218895 and 0.401105. *)
Lemma scenario_binary64 :
  let r := printStats_values (H := binary64) 31 100 in
  near 0.0000005 0.31 (mean r) ∧
  near 0.0000005 0.216061 (var r) ∧
  near 0.0000005 0.218895 (ci_low r) ∧
  near 0.0000005 0.401105 (ci_high r) ∧
  near 0.0001 0.2161 (var r) ∧
  near 0.0001 0.2188 (ci_low r) ∧
  near 0.0001 0.4012 (ci_high r).
Proof. vm_compute. done. Qed.

End StatsFacts.

(** C5. For [trialCount > 1], [printStats] computes
    [mean = successCount / trialCount],
    [variance = successCount * (1 - mean) / (trialCount - 1)], which is the
    estimator [t * p * (1 - p) / (t - 1)] with [p = mean], and the interval
    [mean ± 1.96 * sqrt (variance / trialCount)]: in exact arithmetic these
    are equations. For 31 successes in 100 trials the mean is 0.31, and the
    variance and the ends of the interval are within 0.0001 of 0.2161,
    0.2188 and 0.4012, in exact arithmetic and in the [double]s of the
    program. *)
Theorem printStats_formulas (successCount trialCount : Z) :
  1 < trialCount →
  (let r := Stats.printStats_values (H := Stats.exact) successCount trialCount in
   let s := IZR successCount in
   let t := IZR trialCount in
   Stats.mean r = s / t ∧
   Stats.var r = s * (1 - Stats.mean r) / (t - 1) ∧
   Stats.var r = t * Stats.mean r * (1 - Stats.mean r) / (t - 1) ∧
   Stats.ci_low r = Stats.mean r - 1.96 * R_sqrt.sqrt (Stats.var r / t) ∧
   Stats.ci_high r = Stats.mean r + 1.96 * R_sqrt.sqrt (Stats.var r / t))%R ∧
  (let r := Stats.printStats_values (H := Stats.exact) 31 100 in
   Stats.mean r = 0.31 ∧
   Rabs (Stats.var r - 0.2161) < 0.0001 ∧
   Rabs (Stats.ci_low r - 0.2188) < 0.0001 ∧
   Rabs (Stats.ci_high r - 0.4012) < 0.0001)%R ∧
  (let r := Stats.printStats_values (H := Stats.binary64) 31 100 in
   Stats.near 0.0000005 0.31 (Stats.mean r) ∧
   Stats.near 0.0001 0.2161 (Stats.var r) ∧
   Stats.near 0.0001 0.2188 (Stats.ci_low r) ∧
   Stats.near 0.0001 0.4012 (Stats.ci_high r)).
Proof.
  intros Ht. split; [by apply StatsFacts.formulas_exact|].
  split; [apply StatsFacts.scenario_exact|].
  destruct StatsFacts.scenario_binary64 as (? & _ & _ & _ & ? & ? & ?). done.
Qed.

Lemma printStats_formulas_witness :
  1 < 100 ∧
  (Stats.mean (Stats.printStats_values (H := Stats.exact) 31 100) = IZR 31 / IZR 100 ∧
   Stats.var (Stats.printStats_values (H := Stats.exact) 31 100)
   = IZR 100 * Stats.mean (Stats.printStats_values (H := Stats.exact) 31 100)
     * (1 - Stats.mean (Stats.printStats_values (H := Stats.exact) 31 100)) / (IZR 100 - 1))%R.
Proof.
  split; [lia|].
  pose proof (proj1 (printStats_formulas 31 100 ltac:(lia))) as (Hm & _ & Hv & _).
  split; [exact Hm | exact Hv].
Defined.

(** ** More about the process *)

(** *** The array [successes] *)

Lemma found_count_app (l1 l2 : list (task * event)) :
  found_count (l1 ++ l2) = found_count l1 + found_count l2.
Proof. unfold found_count. by rewrite omap_app, Zsum_app. Qed.

Lemma found_count_trials (t : task) (rs : list found_t) :
  found_count (pair t <$> (Trial <$> rs)) = Zsum (found_value <$> rs).
Proof.
  unfold found_count. induction rs as [|r rs IH]; [done|].
  rewrite !fmap_cons, omap_cons. cbn [snd trial_of fmap option_fmap option_map Zsum foldr].
  fold (Zsum (found_value <$> rs)). by rewrite <- IH.
Qed.

Lemma found_count_simulation_events (w : world) (t : task) (n : Z) :
  found_count (pair t <$> simulation_events w t n)
  = match urandom (env_of w t) with
    | Read seedVal =>
        Zsum (found_value <$> trial_outcomes DEFAULT_NUM_PRISONERS MAX_TRIALS
                                (generator (env_of w t) seedVal) (Z.to_nat n) 0)
    | _ => 0
    end.
Proof.
  unfold simulation_events. destruct (urandom (env_of w t)); [done | done |].
  rewrite fmap_app, found_count_app, found_count_trials. done.
Qed.

Lemma found_count_bounds (l : list (task * event)) :
  0 ≤ found_count l ≤ Z.of_nat (all_trials l).
Proof.
  unfold found_count, all_trials. induction l as [|[t ev] l IH]; [done|].
  rewrite !omap_cons. cbn [snd].
  destruct ev; cbn [trial_of fmap option_fmap option_map]; try done.
  cbn [Zsum foldr length]. fold (Zsum (omap (λ te, found_value <$> trial_of te.2) l)).
  destruct r; cbn [found_value]; lia.
Qed.

(** [splitSimulation] again, with what it leaves in [successes]: a worker
    that was seeded writes its sum into its own slot, and one that was not
    writes nothing. *)
Lemma splitSimulation_slot (w : world) (t : task) (p : simParam) (st : state) :
  ∃ sd k', splitSimulation w t p st
        = (if seeded w t then Ret tt else Exit EXIT_FAILURE,
           State sd k'
             (if seeded w t
              then <[Z.to_nat (taskNum p) :=
                       found_count (pair t <$> simulation_events w t (numSimulations p))]>
                     (successes st)
              else successes st)
             (log st ++ (pair t <$> Banner (taskName p) (taskNum p + 1) (numSimulations p)
                                      :: simulation_events w t (numSimulations p)))).
Proof.
  rewrite found_count_simulation_events. unfold seeded.
  unfold splitSimulation. rewrite bind_run. cbn [emit].
  set (st1 := State _ _ _ _). rewrite bind_run.
  assert (Hsim : ∀ caller, ∃ k', simulateAndStats w t (numSimulations p) caller st1
        = (match urandom (env_of w t) with
           | Read seedVal =>
               Ret (Zsum (found_value <$>
                      trial_outcomes DEFAULT_NUM_PRISONERS MAX_TRIALS
                        (generator (env_of w t) seedVal) (Z.to_nat (numSimulations p)) 0))
           | _ => Exit EXIT_FAILURE
           end,
           State (match urandom (env_of w t) with
                  | Read seedVal => seedVal
                  | _ => rand_seed st
                  end) k' (successes st)
                 (log st ++ (pair t <$> Banner (taskName p) (taskNum p + 1) (numSimulations p)
                                      :: simulation_events w t (numSimulations p))))).
  { intros caller. destruct (simulateAndStats_run w t (numSimulations p) caller st1) as [k' Hk'].
    exists k'. rewrite Hk'. subst st1. cbn [rand_seed successes log].
    by rewrite <- app_assoc. }
  destruct (_ >? 20);
    match goal with |- context [simulateAndStats w t _ ?c st1] =>
      destruct (Hsim c) as [k' ->] end;
    destruct (urandom (env_of w t)); run_M; eauto.
Qed.

Lemma found_count_banner (t : task) (name : string) (a b : Z) (evs : list event) :
  found_count (pair t <$> Banner name a b :: evs) = found_count (pair t <$> evs).
Proof. reflexivity. Qed.

Lemma found_count_unseeded (w : world) (t : task) (n : Z) :
  seeded w t = false → found_count (pair t <$> simulation_events w t n) = 0.
Proof.
  unfold seeded. intros H. rewrite found_count_simulation_events.
  by destruct (urandom (env_of w t)).
Qed.

(** The loop that creates the threads, with the sums it collects: the
    slots are written one after the other, and the loop stops at the first
    worker that was not seeded. *)
Lemma threads_loop_slots (w : world) (q : Z) (count : nat) : ∀ (i : nat) (st : state),
  (∀ j, (i ≤ j < i + count)%nat → successes st !! j = Some 0) →
  ∃ m sd k' a' o,
    for_loop count (Z.of_nat i)
      (λ i, splitSimulation w (Worker (Z.to_nat i)) (SimParam "Thread" i q)) st
    = (o, State sd k' a' (log st ++ workers_log w "Thread" q i m)) ∧
    Zsum a' = Zsum (successes st) + found_count (workers_log w "Thread" q i m) ∧
    ((o = Ret tt ∧ m = count ∧
      ∀ j, (i ≤ j < i + count)%nat → seeded w (Worker j) = true)
     ∨ (o = Exit EXIT_FAILURE ∧ (0 < m ≤ count)%nat ∧
        seeded w (Worker (i + m - 1)) = false)).
Proof.
  induction count as [|count IH]; intros i st Hzero.
  - exists 0%nat, (rand_seed st), (rand_calls st), (successes st), (Ret tt).
    cbn [for_loop workers_log]. rewrite app_nil_r, state_eta.
    split_and!; [done | cbn; lia |]. left. split_and!; [done | done | lia].
  - cbn [for_loop]. replace (Z.of_nat i + 1) with (Z.of_nat (S i)) by lia.
    rewrite bind_run, Nat2Z.id.
    destruct (splitSimulation_slot w (Worker i) (SimParam "Thread" (Z.of_nat i) q) st)
      as (sd & k1 & ->). cbn [taskName taskNum numSimulations]. rewrite Nat2Z.id.
    destruct (seeded w (Worker i)) eqn:Hs.
    + set (fc := found_count _).
      assert (Hi : successes st !! i = Some 0) by (apply Hzero; lia).
      destruct (IH (S i) (State sd k1 (<[i:=fc]> (successes st)) (log st ++
        (pair (Worker i) <$> Banner "Thread" (Z.of_nat i + 1) q
                               :: simulation_events w (Worker i) q))))
        as (m & sd' & k' & a' & o & -> & Hsum & Ho).
      { intros j Hj. cbn [successes]. rewrite list_lookup_insert_ne by lia.
        apply Hzero. lia. }
      exists (S m), sd', k', a', o. cbn [workers_log log successes] in *.
      rewrite <- app_assoc. split_and!; [done | |].
      * rewrite Hsum, (Zsum_insert _ _ _ _ Hi), found_count_app, found_count_banner.
        subst fc. lia.
      * destruct Ho as [(-> & -> & Hall)|(-> & Hm & Hlast)].
        -- left. split_and!; [done | done |]. intros j Hj.
           destruct (decide (j = i)) as [->|]; [done | apply Hall; lia].
        -- right. split_and!; [done | lia | lia |].
           by replace (i + S m - 1)%nat with (S i + m - 1)%nat by lia.
    + exists 1%nat, sd, k1, (successes st), (Exit EXIT_FAILURE). cbn [workers_log].
      rewrite app_nil_r. split_and!; [done | |].
      * rewrite found_count_banner, found_count_unseeded by done. lia.
      * right. split_and!; [done | lia | lia |].
        by replace (i + 1 - 1)%nat with i by lia.
Qed.

(** The loop that forks the children, with the sums it collects: a child
    that was not seeded leaves its slot as it is, and the loop stops at the
    first [fork] that fails. *)
Lemma processes_loop_slots (w : world) (q : Z) (count : nat) : ∀ (i : nat) (st : state),
  (∀ j, (i ≤ j < i + count)%nat → successes st !! j = Some 0) →
  ∃ m a' o tail,
    for_loop count (Z.of_nat i)
      (λ i, if fork_ok w (Z.to_nat i)
            then in_child (splitSimulation w (Worker (Z.to_nat i)) (SimParam "Process" i q);;
                           exit EXIT_SUCCESS)
            else emit Main (Perror "fork failed");; exit EXIT_FAILURE) st
    = (o, State (rand_seed st) (rand_calls st) a'
            (log st ++ workers_log w "Process" q i m ++ (pair Main <$> tail))) ∧
    Zsum a' = Zsum (successes st) + found_count (workers_log w "Process" q i m) ∧
    ((o = Ret tt ∧ m = count ∧ tail = [] ∧
      ∀ j, (i ≤ j < i + count)%nat → fork_ok w j = true)
     ∨ (o = Exit EXIT_FAILURE ∧ (m < count)%nat ∧ tail = [Perror "fork failed"] ∧
        fork_ok w (i + m) = false)).
Proof.
  induction count as [|count IH]; intros i st Hzero.
  - exists 0%nat, (successes st), (Ret tt), []. cbn [for_loop workers_log].
    cbn. rewrite app_nil_r, state_eta.
    split_and!; [done | lia |]. left. split_and!; [done | done | done | lia].
  - cbn [for_loop]. replace (Z.of_nat i + 1) with (Z.of_nat (S i)) by lia.
    rewrite bind_run, Nat2Z.id.
    destruct (fork_ok w i) eqn:Hf.
    + unfold in_child at 1. rewrite bind_run.
      destruct (splitSimulation_slot w (Worker i) (SimParam "Process" (Z.of_nat i) q) st)
        as (sd & k1 & ->). cbn [taskName taskNum numSimulations]. rewrite Nat2Z.id.
      set (l1 := log st ++ _).
      assert (Hi : successes st !! i = Some 0) by (apply Hzero; lia).
      set (a1 := if seeded w (Worker i) then <[_ := _]> _ else _).
      assert (Ha1 : Zsum a1 = Zsum (successes st)
                    + found_count (pair (Worker i) <$> simulation_events w (Worker i) q)
                    ∧ ∀ j, (S i ≤ j < S i + count)%nat → a1 !! j = Some 0).
      { subst a1. destruct (seeded w (Worker i)) eqn:Hs.
        - rewrite (Zsum_insert _ _ _ _ Hi). split; [lia|].
          intros j Hj. rewrite list_lookup_insert_ne by lia. apply Hzero. lia.
        - rewrite found_count_unseeded by done. split; [lia|].
          intros j Hj. apply Hzero. lia. }
      destruct Ha1 as [Hsum1 Hzero1].
      assert (Hchild : ∀ o : outcome (), (match o with
                | Ret _ => @exit unit EXIT_SUCCESS (State sd k1 a1 l1)
                | Exit status => (Exit status, State sd k1 a1 l1)
                | Undefined => (Undefined, State sd k1 a1 l1)
                end).2 = State sd k1 a1 l1) by (by intros [| |]).
      rewrite Hchild. cbn [successes log].
      destruct (IH (S i) (State (rand_seed st) (rand_calls st) a1 l1))
        as (m & a' & o & tail & -> & Hsum & Ho); [done|].
      exists (S m), a', o, tail. cbn [workers_log log rand_seed rand_calls successes] in *.
      subst l1. rewrite <- !app_assoc. split_and!; [done | |].
      * rewrite Hsum, Hsum1, found_count_app, found_count_banner. lia.
      * destruct Ho as [(-> & -> & -> & Hall)|(-> & Hm & -> & Hlast)].
        -- left. split_and!; [done | done | done |]. intros j Hj.
           destruct (decide (j = i)) as [->|]; [done | apply Hall; lia].
        -- right. split_and!; [done | lia | done |].
           by replace (i + S m)%nat with (S i + m)%nat by lia.
    + exists 0%nat, (successes st), (Exit EXIT_FAILURE), [Perror "fork failed"].
      run_M. cbn [workers_log]. cbn.
      split_and!; [done | lia |]. right. split_and!; [done | lia | done |].
      by rewrite Nat.add_0_r.
Qed.

(** [simulateAndStatsWithThreads]: either every worker was seeded, and the
    report carries the number of [FOUND] trials of all workers; or the
    process has exited at a worker that was not seeded, before any report. *)
Lemma threads_report (w : world) (n numThreads : Z) (st : state) :
  0 < numThreads →
  ∃ m sd k' a',
    (simulateAndStatsWithThreads w n numThreads st
     = (Ret tt, State sd k' a'
          (log st ++ workers_log w "Thread" (n ÷ numThreads) 0 m ++
           [(Main, PrintStats (found_count (workers_log w "Thread" (n ÷ numThreads) 0 m))
                     (n ÷ numThreads * numThreads) "All threads")])) ∧
     m = Z.to_nat numThreads ∧
     ∀ j, (j < m)%nat → seeded w (Worker j) = true)
    ∨ (simulateAndStatsWithThreads w n numThreads st
       = (Exit EXIT_FAILURE, State sd k' a'
            (log st ++ workers_log w "Thread" (n ÷ numThreads) 0 m)) ∧
       (0 < m ≤ Z.to_nat numThreads)%nat ∧
       seeded w (Worker (m - 1)) = false).
Proof.
  intros Hpos. unfold simulateAndStatsWithThreads.
  destruct (Z.leb_spec numThreads 0) as [|_]; [lia|]. run_M.
  destruct (threads_loop_slots w (n ÷ numThreads) (Z.to_nat numThreads) 0
              (State (rand_seed st) (rand_calls st)
                 (replicate (Z.to_nat numThreads) 0) (log st)))
    as (m & sd & k' & a' & o & Hrun & Hsum & Ho).
  { intros j Hj. cbn [successes]. apply lookup_replicate_2. lia. }
  change (Z.of_nat 0) with 0 in Hrun. rewrite Hrun.
  cbn [log successes] in *. rewrite Zsum_replicate in Hsum.
  exists m, sd, k', a'.
  destruct Ho as [(-> & -> & Hall)|(-> & Hm & Hlast)].
  - left. run_M. unfold printStats, emit. cbn [rand_seed rand_calls successes log].
    rewrite <- app_assoc. replace (Zsum a') with
      (found_count (workers_log w "Thread" (n ÷ numThreads) 0 (Z.to_nat numThreads))) by lia.
    split_and!; [done | done |]. intros j Hj. apply Hall. lia.
  - right. split_and!; [done | lia | lia | done].
Qed.

(** [simulateAndStatsWithProcesses]: either every [fork] succeeded, and the
    report carries the number of [FOUND] trials of all children; or the
    parent has exited at the first [fork] that failed, before any report. *)
Lemma processes_report (w : world) (n numProcesses : Z) (st : state) :
  0 < numProcesses →
  ∃ m sd k' a',
    (simulateAndStatsWithProcesses w n numProcesses st
     = (Ret tt, State sd k' a'
          (log st ++ workers_log w "Process" (n ÷ numProcesses) 0 m ++
           [(Main, PrintStats (found_count (workers_log w "Process" (n ÷ numProcesses) 0 m))
                     (n ÷ numProcesses * numProcesses) "All processes")])) ∧
     m = Z.to_nat numProcesses ∧
     ∀ j, (j < m)%nat → fork_ok w j = true)
    ∨ (simulateAndStatsWithProcesses w n numProcesses st
       = (Exit EXIT_FAILURE, State sd k' a'
            (log st ++ workers_log w "Process" (n ÷ numProcesses) 0 m ++
             [(Main, Perror "fork failed")])) ∧
       (m < Z.to_nat numProcesses)%nat ∧
       fork_ok w m = false).
Proof.
  intros Hpos. unfold simulateAndStatsWithProcesses.
  destruct (Z.leb_spec numProcesses 0) as [|_]; [lia|]. run_M.
  destruct (processes_loop_slots w (n ÷ numProcesses) (Z.to_nat numProcesses) 0
              (State (rand_seed st) (rand_calls st)
                 (replicate (Z.to_nat numProcesses) 0) (log st)))
    as (m & a' & o & tail & Hrun & Hsum & Ho).
  { intros j Hj. cbn [successes]. apply lookup_replicate_2. lia. }
  change (Z.of_nat 0) with 0 in Hrun. rewrite Hrun.
  cbn [log successes rand_seed rand_calls] in *. rewrite Zsum_replicate in Hsum.
  exists m, (rand_seed st), (rand_calls st), a'.
  destruct Ho as [(-> & -> & -> & Hall)|(-> & Hm & -> & Hlast)].
  - left. run_M. unfold printStats, emit.
    cbn [rand_seed rand_calls successes log fmap list_fmap].
    rewrite app_nil_r, <- app_assoc. replace (Zsum a') with
      (found_count (workers_log w "Process" (n ÷ numProcesses) 0 (Z.to_nat numProcesses)))
      by lia.
    split_and!; [done | done |]. intros j Hj. apply Hall. lia.
  - right. split_and!; [done | lia | done].
Qed.

Lemma found_count_workers_bounds (w : world) (name : string) (q : Z) (i m : nat) :
  0 ≤ found_count (workers_log w name q i m)
    ≤ Z.of_nat (all_trials (workers_log w name q i m)).
Proof. apply found_count_bounds. Qed.

Lemma trials_run_workers_log (w : world) (name : string) (q : Z) (m j : nat) :
  (j < m)%nat →
  trials_run (Worker j) (workers_log w name q 0 m)
  = if seeded w (Worker j) then Z.to_nat q else 0%nat.
Proof.
  intros Hj. unfold trials_run, seeded.
  rewrite trial_results_workers_log, bool_decide_eq_true_2 by lia.
  rewrite trials_of_simulation_events.
  destruct (urandom (env_of w (Worker j))); [done | done |].
  apply trial_outcomes_length.
Qed.

(** X1. With threads, the run is all or nothing: [simulateAndStatsWithThreads]
    returns exactly when every worker got its seed; when one did not, the
    process has exited with [EXIT_FAILURE] and no report was printed,
    whatever the other workers found. *)
Theorem threads_all_or_nothing (w : world) (n numThreads : Z) :
  1 ≤ numThreads →
  ((simulateAndStatsWithThreads w n numThreads start).1 = Ret tt
   ↔ ∀ i, (i < Z.to_nat numThreads)%nat → seeded w (Worker i) = true) ∧
  ((simulateAndStatsWithThreads w n numThreads start).1 ≠ Ret tt →
   (simulateAndStatsWithThreads w n numThreads start).1 = Exit EXIT_FAILURE ∧
   reports (log (simulateAndStatsWithThreads w n numThreads start).2) = []).
Proof.
  intros Hw.
  destruct (threads_report w n numThreads start ltac:(lia))
    as (m & sd & k' & a' & [(-> & -> & Hall)|(-> & Hm & Hlast)]); cbn [fst snd log].
  - split; [done|]. intros H. by destruct H.
  - split.
    + split; [done|]. intros Hall. rewrite Hall in Hlast by lia. done.
    + intros _. split; [done|]. cbn [start log app]. apply reports_workers_log.
Qed.

Lemma threads_all_or_nothing_witness :
  1 ≤ 3 ∧
  (simulateAndStatsWithThreads dry_world 10 3 start).1 = Exit EXIT_FAILURE ∧
  reports (log (simulateAndStatsWithThreads dry_world 10 3 start).2) = [].
Proof.
  split; [lia|].
  apply (proj2 (threads_all_or_nothing dry_world 10 3 ltac:(lia))).
  vm_compute. discriminate.
Defined.

(** X2. With processes, a child that gets no seed is passed over in
    silence: when every [fork] succeeds the parent returns, each child has
    run its [n ÷ numProcesses] trials if it was seeded and none if it was
    not, and the report still counts [(n ÷ numProcesses) * numProcesses]
    trials. *)
Theorem processes_pass_over_unseeded (w : world) (n numProcesses : Z) :
  1 ≤ numProcesses → (∀ i, fork_ok w i = true) →
  (simulateAndStatsWithProcesses w n numProcesses start).1 = Ret tt ∧
  (∀ i, (i < Z.to_nat numProcesses)%nat →
     trials_run (Worker i) (log (simulateAndStatsWithProcesses w n numProcesses start).2)
     = if seeded w (Worker i) then Z.to_nat (n ÷ numProcesses) else 0%nat) ∧
  ∃ sum, reports (log (simulateAndStatsWithProcesses w n numProcesses start).2)
         = [(sum, n ÷ numProcesses * numProcesses, "All processes")].
Proof.
  intros Hw Hf.
  destruct (processes_report w n numProcesses start ltac:(lia))
    as (m & sd & k' & a' & [(-> & -> & Hall)|(-> & Hm & Hlast)]); cbn [fst snd log].
  - split_and!; [done | |].
    + intros i Hi. cbn [start log app]. unfold trials_run.
      rewrite trial_results_app. cbn [trial_results omap list_omap fst snd trial_of].
      destruct (decide (Main = Worker i)); [done|]. rewrite app_nil_r.
      by apply trials_run_workers_log.
    + eexists. cbn [start log app]. by rewrite reports_app, reports_workers_log.
  - rewrite Hf in Hlast. done.
Qed.

Lemma processes_pass_over_unseeded_witness :
  1 ≤ 3 ∧ (∀ i, fork_ok dry_world i = true) ∧
  (simulateAndStatsWithProcesses dry_world 10 3 start).1 = Ret tt ∧
  all_trials (log (simulateAndStatsWithProcesses dry_world 10 3 start).2) = 0%nat ∧
  ∃ sum, reports (log (simulateAndStatsWithProcesses dry_world 10 3 start).2)
         = [(sum, 9, "All processes")].
Proof.
  split; [lia|]. split; [done|].
  pose proof (processes_pass_over_unseeded dry_world 10 3 ltac:(lia) (λ _, eq_refl))
    as (Hret & _ & Hrep).
  split; [exact Hret|]. split; [reflexivity | exact Hrep].
Defined.

(** X3. With processes, the first [fork] that fails ends the run: the
    parent writes "fork failed" and exits with [EXIT_FAILURE], and no
    report is printed, whatever the children before it have found. *)
Theorem processes_fork_failure (w : world) (n numProcesses : Z) (i : nat) :
  (i < Z.to_nat numProcesses)%nat → fork_ok w i = false →
  (simulateAndStatsWithProcesses w n numProcesses start).1 = Exit EXIT_FAILURE ∧
  reports (log (simulateAndStatsWithProcesses w n numProcesses start).2) = [] ∧
  last (log (simulateAndStatsWithProcesses w n numProcesses start).2)
  = Some (Main, Perror "fork failed").
Proof.
  intros Hi Hf.
  destruct (processes_report w n numProcesses start ltac:(lia))
    as (m & sd & k' & a' & [(-> & -> & Hall)|(-> & Hm & Hlast)]); cbn [fst snd log].
  - rewrite Hall in Hf by done. done.
  - cbn [start log app]. split_and!; [done | |].
    + by rewrite reports_app, reports_workers_log.
    + by rewrite last_snoc.
Qed.

Lemma processes_fork_failure_witness :
  (1 < Z.to_nat 3)%nat ∧ fork_ok crowded_world 1 = false ∧
  (simulateAndStatsWithProcesses crowded_world 10 3 start).1 = Exit EXIT_FAILURE ∧
  reports (log (simulateAndStatsWithProcesses crowded_world 10 3 start).2) = [] ∧
  last (log (simulateAndStatsWithProcesses crowded_world 10 3 start).2)
  = Some (Main, Perror "fork failed").
Proof.
  split; [vm_compute; lia|]. split; [reflexivity|].
  apply (processes_fork_failure crowded_world 10 3 1); [vm_compute; lia | reflexivity].
Defined.

(** X4. Whenever a run with workers returns, its one report carries the
    number of trials that returned [FOUND], over all workers, and that
    number lies between 0 and the number of trials run. *)
Theorem workers_report_found_count (w : world) (n numWorkers : Z) :
  1 ≤ numWorkers →
  ((simulateAndStatsWithThreads w n numWorkers start).1 = Ret tt →
   reports (log (simulateAndStatsWithThreads w n numWorkers start).2)
   = [(found_count (log (simulateAndStatsWithThreads w n numWorkers start).2),
       n ÷ numWorkers * numWorkers, "All threads")]) ∧
  ((simulateAndStatsWithProcesses w n numWorkers start).1 = Ret tt →
   reports (log (simulateAndStatsWithProcesses w n numWorkers start).2)
   = [(found_count (log (simulateAndStatsWithProcesses w n numWorkers start).2),
       n ÷ numWorkers * numWorkers, "All processes")]) ∧
  0 ≤ found_count (log (simulateAndStatsWithThreads w n numWorkers start).2)
    ≤ Z.of_nat (all_trials (log (simulateAndStatsWithThreads w n numWorkers start).2)) ∧
  0 ≤ found_count (log (simulateAndStatsWithProcesses w n numWorkers start).2)
    ≤ Z.of_nat (all_trials (log (simulateAndStatsWithProcesses w n numWorkers start).2)).
Proof.
  intros Hw. split_and!.
  - destruct (threads_report w n numWorkers start ltac:(lia))
      as (m & sd & k' & a' & [(-> & -> & Hall)|(-> & Hm & Hlast)]); cbn [fst snd log];
      [|done].
    intros _. cbn [start log app].
    rewrite reports_app, reports_workers_log, found_count_app.
    cbn. by rewrite Z.add_0_r.
  - destruct (processes_report w n numWorkers start ltac:(lia))
      as (m & sd & k' & a' & [(-> & -> & Hall)|(-> & Hm & Hlast)]); cbn [fst snd log];
      [|done].
    intros _. cbn [start log app].
    rewrite reports_app, reports_workers_log, found_count_app.
    cbn. by rewrite Z.add_0_r.
  - apply (proj1 (found_count_bounds _)).
  - apply (proj2 (found_count_bounds _)).
  - apply (proj1 (found_count_bounds _)).
  - apply (proj2 (found_count_bounds _)).
Qed.

Lemma workers_report_found_count_witness :
  1 ≤ 3 ∧
  reports (log (simulateAndStatsWithThreads demo_world 10 3 start).2)
  = [(found_count (log (simulateAndStatsWithThreads demo_world 10 3 start).2),
      9, "All threads")].
Proof.
  split; [lia|].
  apply (proj1 (workers_report_found_count demo_world 10 3 ltac:(lia))).
  reflexivity.
Defined.

(** *** [main], mode by mode *)

Lemma usages_app (l1 l2 : list (task * event)) :
  usages (l1 ++ l2) = usages l1 ++ usages l2.
Proof. apply omap_app. Qed.

Lemma usages_simulation_events (w : world) (t : task) (n : Z) :
  usages (pair t <$> simulation_events w t n) = [].
Proof.
  unfold simulation_events. destruct (urandom (env_of w t)); [done | done |].
  rewrite fmap_app, usages_app. cbn.
  induction (trial_outcomes _ _ _ _ _) as [|r rs IH]; [done|]. by cbn.
Qed.

Lemma usages_workers_log (w : world) (name : string) (q : Z) (m : nat) :
  ∀ i, usages (workers_log w name q i m) = [].
Proof.
  induction m as [|m IH]; intros i; [done|]. cbn [workers_log].
  rewrite usages_app, IH, app_nil_r. rewrite fmap_cons.
  change (usages (?x :: ?l)) with (usages [x] ++ usages l).
  by rewrite usages_simulation_events.
Qed.

Lemma all_trials_simulation_events (w : world) (t : task) (n : Z) :
  all_trials (pair t <$> simulation_events w t n)
  = if seeded w t then Z.to_nat n else 0%nat.
Proof.
  rewrite all_trials_tagged, trials_of_simulation_events. unfold seeded.
  destruct (urandom (env_of w t)); [done | done |]. apply trial_outcomes_length.
Qed.

(** The sequential mode, from the command line to the report. *)
Lemma main_sequential_run (w : world) (a0 a1 a2 : string) :
  starts_with a2 "s" = true →
  ∃ sd k' a',
    main w [a0; a1; a2] start
    = (if seeded w Main then Ret EXIT_SUCCESS else Exit EXIT_FAILURE,
       State sd k' a'
         ((pair Main <$> simulation_events w Main (atoi a1)) ++
          if seeded w Main
          then [(Main, PrintStats
                         (found_count (pair Main <$> simulation_events w Main (atoi a1)))
                         (atoi a1) "Sequence (Single Thread / Process)")]
          else [])).
Proof.
  intros Hs. unfold main. change (Z.of_nat (length [a0; a1; a2]) =? 3) with true.
  cbn match. change (arg [a0; a1; a2] 2) with a2. change (arg [a0; a1; a2] 1) with a1.
  rewrite Hs, !bind_run.
  destruct (simulateAndStats_run w Main (atoi a1) "Sequence (Single Thread / Process)" start)
    as [k' ->].
  rewrite found_count_simulation_events. unfold seeded.
  destruct (urandom (env_of w Main)).
  - eexists _, _, _. cbn [start log app]. by rewrite app_nil_r.
  - eexists _, _, _. cbn [start log app]. by rewrite app_nil_r.
  - eexists _, _, _. unfold printStats, emit. run_M.
    cbn [start rand_seed rand_calls successes log app]. done.
Qed.

(** X5. The sequential mode runs the number of trials that [atoi] reads
    from [argv[1]] (none when it is not positive) and reports that number
    unchanged, with the number of trials that returned [FOUND]; when
    [/dev/urandom] gives no seed the process exits with [EXIT_FAILURE]
    and prints neither a report nor the usage text. *)
Theorem main_sequential (w : world) (a0 a1 a2 : string) :
  starts_with a2 "s" = true →
  if seeded w Main
  then (main w [a0; a1; a2] start).1 = Ret EXIT_SUCCESS ∧
       trials_run Main (log (main w [a0; a1; a2] start).2) = Z.to_nat (atoi a1) ∧
       all_trials (log (main w [a0; a1; a2] start).2) = Z.to_nat (atoi a1) ∧
       reports (log (main w [a0; a1; a2] start).2)
       = [(found_count (log (main w [a0; a1; a2] start).2), atoi a1,
           "Sequence (Single Thread / Process)")] ∧
       usages (log (main w [a0; a1; a2] start).2) = []
  else (main w [a0; a1; a2] start).1 = Exit EXIT_FAILURE ∧
       all_trials (log (main w [a0; a1; a2] start).2) = 0%nat ∧
       reports (log (main w [a0; a1; a2] start).2) = [] ∧
       usages (log (main w [a0; a1; a2] start).2) = [].
Proof.
  intros Hs. destruct (main_sequential_run w a0 a1 a2 Hs) as (sd & k' & a' & ->).
  cbn [fst snd log].
  pose proof (all_trials_simulation_events w Main (atoi a1)) as Hall.
  pose proof (reports_simulation_events w Main (atoi a1)) as Hrep.
  pose proof (usages_simulation_events w Main (atoi a1)) as Hus.
  destruct (seeded w Main) eqn:Hseed.
  - split_and!.
    + done.
    + unfold trials_run. rewrite trial_results_app, trial_results_tagged.
      rewrite decide_True by done. cbn. rewrite app_nil_r.
      rewrite trials_of_simulation_events. unfold seeded in Hseed.
      destruct (urandom (env_of w Main)); [done | done |]. apply trial_outcomes_length.
    + rewrite all_trials_app, Hall. cbn. lia.
    + rewrite reports_app, Hrep, found_count_app. cbn. by rewrite Z.add_0_r.
    + by rewrite usages_app, Hus.
  - rewrite app_nil_r. by split_and!.
Qed.

Lemma main_sequential_witness :
  starts_with "seq" "s" = true ∧
  (main demo_world ["simuBestop"; "3"; "seq"] start).1 = Ret EXIT_SUCCESS ∧
  trials_run Main (log (main demo_world ["simuBestop"; "3"; "seq"] start).2) = 3%nat.
Proof.
  split; [reflexivity|].
  pose proof (main_sequential demo_world "simuBestop" "3" "seq" eq_refl) as H.
  change (seeded demo_world Main) with true in H. cbv iota in H.
  destruct H as (H1 & H2 & _). split; [exact H1 | exact H2].
Defined.

(** X6. With a thread or process mode and a number of workers that [atoi]
    reads as zero or less (such as [0], [-2] or [abc]), [main] reaches
    arrays of no or negative length and a division by zero: its behaviour
    is undefined, and nothing has been printed before, not even the usage
    text. *)
Theorem main_nonpositive_workers (w : world) (a0 a1 a2 a3 : string) (st : state) :
  starts_with a2 "p" = true ∨ starts_with a2 "t" = true →
  atoi a3 ≤ 0 →
  main w [a0; a1; a2; a3] st = (Undefined, st).
Proof.
  intros Hmode Hn. unfold main.
  change (Z.of_nat (length [a0; a1; a2; a3]) =? 3) with false.
  change (Z.of_nat (length [a0; a1; a2; a3]) =? 4) with true. cbn match.
  change (arg [a0; a1; a2; a3] 2) with a2. change (arg [a0; a1; a2; a3] 3) with a3.
  rewrite bind_run.
  assert (Hle : (atoi a3 <=? 0) = true) by (by apply Z.leb_le).
  destruct (starts_with a2 "p") eqn:Hp.
  - unfold simulateAndStatsWithProcesses. by rewrite Hle.
  - destruct Hmode as [|Ht]; [done|]. rewrite Ht.
    unfold simulateAndStatsWithThreads. by rewrite Hle.
Qed.

Lemma main_nonpositive_workers_witness :
  (starts_with "p" "p" = true ∨ starts_with "p" "t" = true) ∧
  atoi "abc" ≤ 0 ∧
  main demo_world ["simuBestop"; "10"; "p"; "abc"] start = (Undefined, start).
Proof.
  split; [by left|]. split; [vm_compute; discriminate|].
  apply (main_nonpositive_workers demo_world "simuBestop" "10" "p" "abc" start);
    [by left | vm_compute; discriminate].
Defined.

(** X7. [main] prints the usage text exactly on the command lines it does
    not recognise, and then once: on a command line it recognises nothing
    of it is printed, whatever happens to the simulation. *)
Theorem main_usage_iff_unrecognised (w : world) (argv : list string) :
  usages (log (main w argv start).2) = if recognised argv then [] else [usage_text].
Proof.
  destruct (recognised argv) eqn:Hrec.
  2: { by rewrite (main_unrecognised w argv start Hrec). }
  assert (Hthreads : ∀ n nw, usages (log (simulateAndStatsWithThreads w n nw start).2) = []).
  { intros n nw. destruct (Z.leb_spec nw 0) as [Hle|Hgt].
    - unfold simulateAndStatsWithThreads. apply Z.leb_le in Hle. by rewrite Hle.
    - destruct (threads_run w n nw start Hgt)
        as (m & sd & k' & a' & o & tail & -> & _ & Ho & _).
      cbn [snd log start app]. rewrite usages_app, usages_workers_log.
      by destruct Ho as [[_ [sum ->]]|[_ ->]]. }
  assert (Hprocs : ∀ n nw, usages (log (simulateAndStatsWithProcesses w n nw start).2) = []).
  { intros n nw. destruct (Z.leb_spec nw 0) as [Hle|Hgt].
    - unfold simulateAndStatsWithProcesses. apply Z.leb_le in Hle. by rewrite Hle.
    - destruct (processes_run w n nw start Hgt)
        as (m & sd & k' & a' & o & tail & -> & _ & Ho & _).
      cbn [snd log start app]. rewrite usages_app, usages_workers_log.
      by destruct Ho as [[_ [sum ->]]|[_ ->]]. }
  destruct argv as [|a0 [|a1 [|a2 [|a3 [|a4 rest]]]]]; try done; cbn [recognised] in Hrec.
  - destruct (main_sequential_run w a0 a1 a2 Hrec) as (sd & k' & a' & ->).
    cbn [snd log]. rewrite usages_app, usages_simulation_events.
    by destruct (seeded w Main).
  - unfold main. rewrite seq_mret_state.
    change (Z.of_nat (length [a0; a1; a2; a3]) =? 3) with false.
    change (Z.of_nat (length [a0; a1; a2; a3]) =? 4) with true. cbn match.
    change (arg [a0; a1; a2; a3] 2) with a2.
    destruct (starts_with a2 "p"); [done|].
    cbn [orb] in Hrec. by rewrite Hrec.
Qed.

Lemma entropy_seeded (w : world) (i : nat) :
  entropy_for_workers w → seeded w (Worker i) = true.
Proof. intros He. unfold seeded. by destruct (He i) as [v ->]. Qed.

(** X14. With fewer trials than workers no trial is run at all: every
    worker is given [n ÷ numWorkers = 0] trials, and the report is made
    for 0 successes in 0 trials. *)
Theorem fewer_trials_than_workers (w : world) (n numWorkers : Z) :
  0 ≤ n < numWorkers → entropy_for_workers w → (∀ i, fork_ok w i = true) →
  ((simulateAndStatsWithThreads w n numWorkers start).1 = Ret tt ∧
   all_trials (log (simulateAndStatsWithThreads w n numWorkers start).2) = 0%nat ∧
   reports (log (simulateAndStatsWithThreads w n numWorkers start).2)
   = [(0, 0, "All threads")]) ∧
  ((simulateAndStatsWithProcesses w n numWorkers start).1 = Ret tt ∧
   all_trials (log (simulateAndStatsWithProcesses w n numWorkers start).2) = 0%nat ∧
   reports (log (simulateAndStatsWithProcesses w n numWorkers start).2)
   = [(0, 0, "All processes")]).
Proof.
  intros Hn He Hf.
  assert (Hq : n ÷ numWorkers = 0) by (apply Z.quot_small; lia).
  assert (Hnone : ∀ name m, all_trials (workers_log w name 0 0 m) = 0%nat).
  { intros name m. rewrite all_trials_workers_log by done. cbn. lia. }
  assert (Hfc : ∀ name m, found_count (workers_log w name 0 0 m) = 0).
  { intros name m. pose proof (found_count_bounds (workers_log w name 0 0 m)) as Hb.
    rewrite Hnone in Hb. lia. }
  split.
  - destruct (threads_report w n numWorkers start ltac:(lia))
      as (m & sd & k' & a' & [(-> & -> & Hall)|(-> & Hm & Hlast)]); cbn [fst snd log].
    + rewrite Hq. cbn [start log app]. split_and!; [done | |].
      * rewrite all_trials_app, Hnone. done.
      * rewrite reports_app, reports_workers_log, Hfc. done.
    + by rewrite entropy_seeded in Hlast.
  - destruct (processes_report w n numWorkers start ltac:(lia))
      as (m & sd & k' & a' & [(-> & -> & Hall)|(-> & Hm & Hlast)]); cbn [fst snd log].
    + rewrite Hq. cbn [start log app]. split_and!; [done | |].
      * rewrite all_trials_app, Hnone. done.
      * rewrite reports_app, reports_workers_log, Hfc. done.
    + by rewrite Hf in Hlast.
Qed.

Lemma fewer_trials_than_workers_witness :
  0 ≤ 3 < 4 ∧ entropy_for_workers demo_world ∧ (∀ i, fork_ok demo_world i = true) ∧
  reports (log (simulateAndStatsWithThreads demo_world 3 4 start).2)
  = [(0, 0, "All threads")].
Proof.
  split; [lia|]. split; [exact demo_world_entropy|]. split; [intros i; reflexivity|].
  apply (fewer_trials_than_workers demo_world 3 4); [lia | exact demo_world_entropy |].
  intros i. reflexivity.
Defined.

(** ** More about the numbers of [printStats] *)

Lemma Rdiv_bounds (x d lo hi : R) :
  (0 < d → lo * d <= x → x <= hi * d → lo <= x / d <= hi)%R.
Proof.
  intros Hd Hlo Hhi. split.
  - apply (Rmult_le_reg_r d); [done|]. unfold Rdiv.
    rewrite Rmult_assoc, Rinv_l by lra. lra.
  - apply (Rmult_le_reg_r d); [done|]. unfold Rdiv.
    rewrite Rmult_assoc, Rinv_l by lra. lra.
Qed.

(** X8. For a count of successes between 0 and the number of trials, and
    more than one trial, the numbers of the report make sense in exact
    arithmetic: the mean lies in [0, 1], the variance in [0, 1/2] (so the
    square root is taken of no negative number), the interval is centred
    on the mean, and it shrinks to the mean itself when no trial or every
    trial succeeded. *)
Theorem printStats_report_sane (successCount trialCount : Z) :
  0 ≤ successCount ≤ trialCount → 1 < trialCount →
  let r := Stats.printStats_values (H := Stats.exact) successCount trialCount in
  (0 <= Stats.mean r <= 1 ∧
   0 <= Stats.var r <= 1 / 2 ∧
   0 <= Stats.var r / IZR trialCount ∧
   Stats.ci_low r <= Stats.mean r <= Stats.ci_high r ∧
   Stats.ci_high r - Stats.mean r = Stats.mean r - Stats.ci_low r)%R ∧
  (successCount = 0 ∨ successCount = trialCount →
   (Stats.var r = 0 ∧ Stats.ci_low r = Stats.mean r ∧ Stats.ci_high r = Stats.mean r)%R).
Proof.
  intros Hs Ht. cbn -[IZR]. rewrite minus_IZR, Rplus_0_r.
  set (s := IZR successCount). set (t := IZR trialCount).
  assert (Hs0 : (0 <= s)%R) by (apply IZR_le; lia).
  assert (Hst : (s <= t)%R) by (apply IZR_le; lia).
  assert (Ht2 : (2 <= t)%R) by (apply IZR_le; lia).
  assert (Hmean : (0 <= s / t <= 1)%R) by (apply Rdiv_bounds; lra).
  assert (Hvar : (s * (1 - s / t) / (t - 1) = s * (t - s) / (t * (t - 1)))%R)
    by (field; lra).
  assert (Hv : (0 <= s * (1 - s / t) / (t - 1) <= 1 / 2)%R).
  { rewrite Hvar. pose proof (Rle_0_sqr (t - 2 * s)) as Hsqr. unfold Rsqr in Hsqr.
    apply Rdiv_bounds; nra. }
  assert (Hvt : (0 <= s * (1 - s / t) / (t - 1) / t)%R).
  { apply Rdiv_bounds with (hi := 1%R); lra. }
  pose proof (sqrt_pos (s * (1 - s / t) / (t - 1) / t)) as Hsq.
  split.
  - split_and!; try lra.
  - intros Hedge.
    assert (Hzero : (s * (1 - s / t) / (t - 1) = 0)%R).
    { rewrite Hvar. destruct Hedge as [->| ->].
      - subst s. simpl. unfold Rdiv. by rewrite !Rmult_0_l.
      - subst s t. unfold Rdiv. rewrite Rminus_diag, Rmult_0_r, Rmult_0_l. done. }
    rewrite Hzero. replace (0 / t)%R with 0%R by (unfold Rdiv; by rewrite Rmult_0_l).
    rewrite sqrt_0. split_and!; lra.
Qed.

Lemma printStats_report_sane_witness :
  0 ≤ 31 ≤ 100 ∧ 1 < 100 ∧
  (0 <= Stats.var (Stats.printStats_values (H := Stats.exact) 31 100) <= 1 / 2)%R.
Proof.
  split; [lia|]. split; [lia|].
  pose proof (proj1 (printStats_report_sane 31 100 ltac:(lia) ltac:(lia)))
    as (_ & Hv & _).
  exact Hv.
Defined.

(** X9. With one trial or none, the variance and both ends of the interval
    that the program computes are not numbers: the division by
    [trialCount - 1] (or by [trialCount]) is a division of zero by zero. *)
Theorem printStats_too_few_trials (successCount trialCount : Z) :
  0 ≤ successCount ≤ trialCount → trialCount ≤ 1 →
  let r := Stats.printStats_values (H := Stats.binary64) successCount trialCount in
  PrimFloat.is_nan (Stats.var r) = true ∧
  PrimFloat.is_nan (Stats.ci_low r) = true ∧
  PrimFloat.is_nan (Stats.ci_high r) = true.
Proof.
  intros Hs Ht.
  assert (Hcases : (successCount = 0 ∧ trialCount = 0) ∨
                   (successCount = 0 ∧ trialCount = 1) ∨
                   (successCount = 1 ∧ trialCount = 1)) by lia.
  destruct Hcases as [[-> ->]|[[-> ->]|[-> ->]]]; vm_compute; done.
Qed.

Lemma printStats_too_few_trials_witness :
  0 ≤ 1 ≤ 1 ∧ 1 ≤ 1 ∧
  PrimFloat.is_nan (Stats.var (Stats.printStats_values (H := Stats.binary64) 1 1)) = true.
Proof.
  split; [lia|]. split; [lia|].
  exact (proj1 (printStats_too_few_trials 1 1 ltac:(lia) ltac:(lia))).
Defined.

(** ** More about the single trial *)

(** *** Walks to the root *)





(** *** Counting the members of a partition *)










(** *** The loop and the partitions *)







(** *** The range of [size], and the bound *)




